(** * Absensi-IoT: the identity-matching and attendance core

    A shallow embedding of

    - [src/server_main.py]: [calculate_cosine_distance], [recognize_face],
      [absensi_endpoint];
    - [src/_data_persistance.py]: the SQLite store of the tables [magang]
      and [absensi];
    - [src/training_embedding.py]: [process_and_save_embeddings].

    Python exceptions are values of an error monad, the SQLite file is an
    explicit state threaded through every call, and numpy's floating-point
    arithmetic is an interface ([Numeric]) whose operations the functions
    use exactly where the source does.  The interface is instantiated with
    the kernel's IEEE-754 binary64 floats, so every definition runs. *)

From Stdlib Require Import List Bool Arith ZArith NArith Lia Sorted.
From Stdlib Require Import Strings.String Strings.Ascii Strings.Byte.
From Stdlib Require Import Floats Uint63.
Import ListNotations.

Set Warnings "-inexact-float".

Local Open Scope string_scope.
Local Open Scope list_scope.

(* ================================================================== *)
(** * Exceptions *)
(* ================================================================== *)

(** The Python exception classes the modelled code can raise. *)
Inductive exn : Type :=
| TypeError            (* a call that does not bind a required parameter *)
| ValueError           (* numpy: shapes not aligned, bad buffer size     *)
| ZeroDivisionError    (* a division that faults                         *)
| Sqlite3Error.        (* sqlite3.Error and its subclasses               *)

(** A computation either returns or raises. *)
Inductive Exc (A : Type) : Type :=
| Ok (a : A)
| Raise (e : exn).

Arguments Ok {A} a.
Arguments Raise {A} e.

Definition bind {A B : Type} (c : Exc A) (k : A -> Exc B) : Exc B :=
  match c with
  | Ok a => k a
  | Raise e => Raise e
  end.

Notation "x <- c ;; k" := (bind c (fun x => k))
  (at level 61, c at next level, right associativity).
Notation "' pat <- c ;; k" := (bind c (fun x => match x with pat => k end))
  (at level 61, pat pattern, c at next level, right associativity).

(** A [for] loop whose body may raise: the first exception leaves the loop. *)
Fixpoint for_each {A S : Type} (body : S -> A -> Exc S) (l : list A) (s : S)
  : Exc S :=
  match l with
  | [] => Ok s
  | a :: l' => s' <- body s a ;; for_each body l' s'
  end.

(** The results of a list of computations, up to the first that raises. *)
Fixpoint sequence {A : Type} (l : list (Exc A)) : Exc (list A) :=
  match l with
  | [] => Ok []
  | c :: l' => a <- c ;; r <- sequence l' ;; Ok (a :: r)
  end.

(* ================================================================== *)
(** * Numbers *)
(* ================================================================== *)

(** What the code asks of numpy's floats.  [fdiv] is the division
    operator [/]; it is allowed to fault, so that a statement proved for
    every [Numeric] also holds where dividing by zero raises.  [fdiv_count]
    is the division by an element count that [np.mean] performs.
    [f32_bits] is the IEEE-754 binary32 bit pattern of a value cast with
    [astype(np.float32)], [f32_of_bits] the value of such a pattern. *)
Class Numeric (F : Type) : Type := {
  fzero : F;                       (* 0                *)
  fone : F;                        (* 1, 1.0           *)
  finf : F;                        (* float('inf')     *)
  f999 : F;                        (* 999.0            *)
  f0_95 : F;                       (* 0.95             *)
  fadd : F -> F -> F;
  fsub : F -> F -> F;
  fmul : F -> F -> F;
  fdiv : F -> F -> Exc F;
  fdiv_count : F -> nat -> F;
  fsqrt : F -> F;
  flt : F -> F -> bool;            (* <                *)
  feq : F -> F -> bool;            (* ==               *)
  f32_bits : F -> N;
  f32_of_bits : N -> F
}.

(** [a > b] *)
Definition fgt {F : Type} {Num : Numeric F} (a b : F) : bool := flt b a.

(** An [np.ndarray] is its data in row-major order; [flatten] keeps the
    data, so it is the identity on this representation. *)
Definition ndarray (F : Type) : Type := list F.

Definition flatten {F : Type} (a : ndarray F) : ndarray F := a.

Section Recognition.

Context {F : Type} {Num : Numeric F}.

(** [np.dot] of two one-dimensional arrays: [ValueError] when the shapes
    are not aligned. *)
Definition np_dot (a b : ndarray F) : Exc F :=
  if Nat.eqb (List.length a) (List.length b)
  then Ok (fold_left (fun acc xy => fadd acc (fmul (fst xy) (snd xy)))
                     (combine a b) fzero)
  else Raise ValueError.

(** [np.linalg.norm]: the L2 (Frobenius) norm. *)
Definition np_linalg_norm (a : ndarray F) : F :=
  fsqrt (fold_left (fun acc x => fadd acc (fmul x x)) a fzero).

(** server_main.py, lines 36-46. *)
Definition calculate_cosine_distance (emb1 emb2 : ndarray F) : Exc F :=
  dot_product <- np_dot (flatten emb1) (flatten emb2) ;;
  let norm_emb1 := np_linalg_norm emb1 in
  let norm_emb2 := np_linalg_norm emb2 in
  if feq norm_emb1 fzero || feq norm_emb2 fzero
  then Ok fone
  else
    cosine_similarity <- fdiv dot_product (fmul norm_emb1 norm_emb2) ;;
    Ok (fsub fone cosine_similarity).

(** server_main.py, line 27. *)
Definition SIMILARITY_THRESHOLD : F := f0_95.

(** An element of [MAGANG_EMBEDDINGS]: the dict with keys ['id'], ['name']
    and ['embedding'] built by [load_all_magang_embeddings]. *)
Record magang_entry : Type := {
  id : string;
  name : string;
  embedding : ndarray F
}.

(** The running [(min_distance, best_match_id, best_match_name)]. *)
Definition scan_state : Type := (F * string * string)%type.

(** The body of the loop of [recognize_face], lines 58-64. *)
Definition scan_step (live_embedding : ndarray F) (st : scan_state)
  (magang : magang_entry) : Exc scan_state :=
  let '(min_distance, _, _) := st in
  let master_embedding := flatten (embedding magang) in
  distance <- calculate_cosine_distance live_embedding master_embedding ;;
  if flt distance min_distance
  then Ok (distance, id magang, name magang)
  else Ok st.

(** server_main.py, lines 48-69.  The global [MAGANG_EMBEDDINGS] is
    read, never written: it is an argument. *)
Definition recognize_face (MAGANG_EMBEDDINGS : list magang_entry)
  (live_embedding : ndarray F) : Exc (string * F * string) :=
  match MAGANG_EMBEDDINGS with
  | [] => Ok ("UNKNOWN", f999, "UNKNOWN")
  | _ :: _ =>
      '(min_distance, best_match_id, best_match_name) <-
         for_each (scan_step live_embedding) MAGANG_EMBEDDINGS
                  (finf, "UNKNOWN", "UNKNOWN") ;;
      if fgt min_distance SIMILARITY_THRESHOLD
      then Ok ("UNKNOWN", min_distance, "UNKNOWN")
      else Ok (best_match_id, min_distance, best_match_name)
  end.

(** The distances the scan computes, in scan order. *)
Definition distances (MAGANG_EMBEDDINGS : list magang_entry)
  (live_embedding : ndarray F) : list (Exc F) :=
  map (fun magang =>
         calculate_cosine_distance live_embedding (flatten (embedding magang)))
      MAGANG_EMBEDDINGS.

End Recognition.

Arguments magang_entry F : clear implicits.
Arguments scan_state F : clear implicits.

(* ================================================================== *)
(** * The binary64 instance *)
(* ================================================================== *)

(** Python's [float] is IEEE-754 binary64, which the kernel's primitive
    floats implement: [NaN], the infinities and signed zeros behave as in
    the running program.  numpy's scalars do not raise on a division by
    zero (they warn and return an infinity or [NaN]), so [fdiv] never
    faults here.  The binary32 cast rounds to nearest even. *)
Module Float64.

Definition prec32 : Z := 24.
Definition emax32 : Z := 128.

(** Rounding of a binary64 value to the binary32 format. *)
Definition round32 (x : float) : spec_float :=
  match Prim2SF x with
  | S754_finite s m e => binary_round prec32 emax32 s m e
  | sf => sf
  end.

(** Sign bit, 8 exponent bits, 23 fraction bits. *)
Definition pack32 (s : bool) (expo frac : N) : N :=
  ((if s then 2 ^ 31 else 0) + (expo mod 2 ^ 8) * 2 ^ 23 + frac mod 2 ^ 23)%N.

Definition encode32 (x : spec_float) : N :=
  match x with
  | S754_zero s => pack32 s 0 0
  | S754_infinity s => pack32 s 255 0
  | S754_nan => pack32 false 255 (2 ^ 22)
  | S754_finite s m e =>
      if (Npos m <? 2 ^ 23)%N
      then pack32 s 0 (Npos m)
      else pack32 s (Z.to_N (e + 150)) (Npos m - 2 ^ 23)
  end.

Definition decode32 (w : N) : spec_float :=
  let s := N.testbit w 31 in
  let expo := ((w / 2 ^ 23) mod 2 ^ 8)%N in
  let frac := (w mod 2 ^ 23)%N in
  if (expo =? 255)%N
  then if (frac =? 0)%N then S754_infinity s else S754_nan
  else if (expo =? 0)%N
  then match frac with
       | N0 => S754_zero s
       | Npos m => S754_finite s m (-149)
       end
  else match (frac + 2 ^ 23)%N with
       | N0 => S754_nan
       | Npos m => S754_finite s m (Z.of_N expo - 150)
       end.

Definition bits32 (x : float) : N := encode32 (round32 x).
Definition of_bits32 (w : N) : float := SF2Prim (decode32 w).

Definition of_nat (n : nat) : float :=
  PrimFloat.of_uint63 (Uint63.of_Z (Z.of_nat n)).

#[global] Instance float_Numeric : Numeric float := {|
  fzero := 0%float;
  fone := 1%float;
  finf := infinity;
  f999 := 999%float;
  f0_95 := 0.95%float;
  fadd := PrimFloat.add;
  fsub := PrimFloat.sub;
  fmul := PrimFloat.mul;
  fdiv := fun a b => Ok (PrimFloat.div a b);
  fdiv_count := fun x n => PrimFloat.div x (of_nat n);
  fsqrt := PrimFloat.sqrt;
  flt := PrimFloat.ltb;
  feq := PrimFloat.eqb;
  f32_bits := bits32;
  f32_of_bits := of_bits32
|}.

(** The place of a value in the order [<]: the sign class, then exponent
    and mantissa, mirrored for negative values.  [NaN] has no place. *)
Definition sf_key (x : spec_float) : Z * Z * Z :=
  match x with
  | S754_nan => (0, 0, 0)
  | S754_infinity true => (-2, 0, 0)
  | S754_infinity false => (2, 0, 0)
  | S754_zero _ => (0, 0, 0)
  | S754_finite false m e => (1, e, Zpos m)
  | S754_finite true m e => (-1, - e, Zneg m)
  end%Z.

Definition float_key (d : float) : Z * Z * Z := sf_key (Prim2SF d).

Definition key_lt (a b : Z * Z * Z) : Prop :=
  let '(a1, a2, a3) := a in
  let '(b1, b2, b3) := b in
  (a1 < b1 \/ (a1 = b1 /\ (a2 < b2 \/ (a2 = b2 /\ a3 < b3))))%Z.

(** Python's own [float] division, which raises on a zero divisor: the
    strictest reading of a division fault. *)
Definition checked_div (a b : float) : Exc float :=
  if PrimFloat.eqb b 0%float then Raise ZeroDivisionError
  else Ok (PrimFloat.div a b).

Definition strict_Numeric : Numeric float := {|
  fzero := 0%float;
  fone := 1%float;
  finf := infinity;
  f999 := 999%float;
  f0_95 := 0.95%float;
  fadd := PrimFloat.add;
  fsub := PrimFloat.sub;
  fmul := PrimFloat.mul;
  fdiv := checked_div;
  fdiv_count := fun x n => PrimFloat.div x (of_nat n);
  fsqrt := PrimFloat.sqrt;
  flt := PrimFloat.ltb;
  feq := PrimFloat.eqb;
  f32_bits := bits32;
  f32_of_bits := of_bits32
|}.

End Float64.

(* ================================================================== *)
(** * Wall-clock time and its text form *)
(* ================================================================== *)

(** A reading of [datetime.now()]. *)
Record datetime : Type := {
  year : N;
  month : N;
  day : N;
  hour : N;
  minute : N;
  second : N
}.

(** The readings whose text form has the fixed width the store relies on:
    fields within their calendar ranges and a year of four digits (from
    1000 on [%Y] prints four digits on every platform). *)
Definition valid_datetime (t : datetime) : Prop :=
  (1000 <= year t <= 9999 /\ 1 <= month t <= 12 /\ 1 <= day t <= 31 /\
   hour t < 24 /\ minute t < 60 /\ second t < 60)%N.

Definition digit (d : N) : ascii := ascii_of_N (48 + d).

Definition pad2 (n : N) : string :=
  String (digit (n / 10 mod 10)) (String (digit (n mod 10)) EmptyString).

Definition pad4 (n : N) : string :=
  String (digit (n / 1000 mod 10)) (String (digit (n / 100 mod 10)) (pad2 n)).

(** [strftime('%Y-%m-%d')] *)
Definition strftime_date (t : datetime) : string :=
  pad4 (year t) ++ "-" ++ pad2 (month t) ++ "-" ++ pad2 (day t).

(** [strftime('%Y-%m-%d %H:%M:%S')] *)
Definition strftime (t : datetime) : string :=
  strftime_date t ++ " " ++
  pad2 (hour t) ++ ":" ++ pad2 (minute t) ++ ":" ++ pad2 (second t).

(** [date.today().strftime('%Y-%m-%d 00:00:00')], the day being that of
    the clock reading [t]. *)
Definition today_start (t : datetime) : string :=
  strftime_date t ++ " 00:00:00".

(** Lexicographic comparison of two lists of fields. *)
Fixpoint compare_fields (a b : list N) : comparison :=
  match a, b with
  | x :: a', y :: b' =>
      match N.compare x y with
      | Eq => compare_fields a' b'
      | c => c
      end
  | [], [] => Eq
  | [], _ :: _ => Lt
  | _ :: _, [] => Gt
  end.

Definition fields (t : datetime) : list N :=
  [year t; month t; day t; hour t; minute t; second t].

(** Chronological order of naive datetimes, as Python compares them. *)
Definition datetime_compare (t1 t2 : datetime) : comparison :=
  compare_fields (fields t1) (fields t2).

(** Midnight of the day of [t]. *)
Definition start_of_day (t : datetime) : datetime :=
  {| year := year t; month := month t; day := day t;
     hour := 0; minute := 0; second := 0 |}.

(** [t] is at or after the start of the day of [now]. *)
Definition at_or_after_start_of_day (now t : datetime) : Prop :=
  datetime_compare (start_of_day now) t <> Gt.

(* ================================================================== *)
(** * The embedding BLOB *)
(* ================================================================== *)

Definition byte_of_N (n : N) : byte :=
  match Byte.of_N (n mod 256) with
  | Some b => b
  | None => x00
  end.

(** The four bytes of a 32-bit word, least significant first. *)
Definition word_bytes (w : N) : list byte :=
  [byte_of_N w; byte_of_N (w / 2 ^ 8); byte_of_N (w / 2 ^ 16);
   byte_of_N (w / 2 ^ 24)]%N.

Definition bytes_word (b0 b1 b2 b3 : byte) : N :=
  (Byte.to_N b0 + 2 ^ 8 * Byte.to_N b1 + 2 ^ 16 * Byte.to_N b2
   + 2 ^ 24 * Byte.to_N b3)%N.

(** [np.frombuffer(blob, dtype=np.float32)] up to the reading of each
    word as a float: [ValueError] when the buffer size is not a multiple of
    the element size. *)
Fixpoint buffer_words (blob : list byte) : Exc (list N) :=
  match blob with
  | [] => Ok []
  | b0 :: b1 :: b2 :: b3 :: rest =>
      ws <- buffer_words rest ;; Ok (bytes_word b0 b1 b2 b3 :: ws)
  | _ => Raise ValueError
  end.

Section Blob.

Context {F : Type} {Num : Numeric F}.

(** [embedding_array.astype(np.float32).tobytes()] *)
Definition tobytes_float32 (embedding_array : ndarray F) : list byte :=
  flat_map (fun x => word_bytes (f32_bits x)) embedding_array.

(** [np.frombuffer(embedding_blob, dtype=np.float32)] *)
Definition np_frombuffer_float32 (embedding_blob : list byte)
  : Exc (ndarray F) :=
  ws <- buffer_words embedding_blob ;; Ok (map f32_of_bits ws).

(** A value cast to binary32. *)
Definition cast_float32 (x : F) : F := f32_of_bits (f32_bits x).

End Blob.

(* ================================================================== *)
(** * The SQLite store: _data_persistance.py *)
(* ================================================================== *)

(** A row of the table [magang]
    ([id TEXT PRIMARY KEY, nama, master_embedding BLOB, last_updated]). *)
Record magang_row : Type := {
  row_id : string;
  row_nama : string;
  row_master_embedding : list byte;
  row_last_updated : string
}.

(** A row of the table [absensi]
    ([id INTEGER PRIMARY KEY, magang_id, nama, timestamp, type]). *)
Record absensi_row : Type := {
  log_id : N;
  log_magang_id : string;
  log_nama : string;
  log_timestamp : string;
  log_type : string
}.

(** The database file.  A table that was never created is [None]: a
    statement that names it raises [sqlite3.OperationalError].  Rows are
    kept in rowid order, the order in which a [SELECT] without
    [ORDER BY] returns them. *)
Record database : Type := {
  magang : option (list magang_row);
  absensi : option (list absensi_row)
}.

(** The file [sqlite3.connect] creates when none exists. *)
Definition empty_database : database :=
  {| magang := None; absensi := None |}.

(** The rows of a table, or the error of naming a table that is absent. *)
Definition table {A : Type} (t : option (list A)) : Exc (list A) :=
  match t with
  | Some rows => Ok rows
  | None => Raise Sqlite3Error
  end.

(** [try: c  except sqlite3.Error: handler]; other exceptions propagate. *)
Definition except_sqlite3 {A : Type} (c : Exc A) (handler : A) : Exc A :=
  match c with
  | Raise Sqlite3Error => Ok handler
  | _ => c
  end.

(** [INSERT OR REPLACE INTO magang]: the row with the same primary key
    is deleted, the new row takes the next rowid. *)
Definition insert_or_replace (new : magang_row) (rows : list magang_row)
  : list magang_row :=
  filter (fun r => negb (String.eqb (row_id r) (row_id new))) rows ++ [new].

(** The rowid SQLite gives a row inserted without one. *)
Definition next_rowid (rows : list absensi_row) : N :=
  (fold_right N.max 0 (map log_id rows) + 1)%N.

(** Lines 11-49: [CREATE TABLE IF NOT EXISTS] for both tables. *)
Definition create_initial_tables (db : database) : database :=
  {| magang := Some (match magang db with Some rows => rows | None => [] end);
     absensi := Some (match absensi db with Some rows => rows | None => [] end)
  |}.

(** Lines 51-69: [DELETE FROM magang].  The reset of [sqlite_sequence]
    that follows touches no table of the model (the schema has no
    AUTOINCREMENT column) and its error is passed over. *)
Definition clear_magang_table (db : database) : database :=
  match magang db with
  | Some _ => {| magang := Some []; absensi := absensi db |}
  | None => db
  end.

Section Store.

Context {F : Type} {Num : Numeric F}.

(** Lines 71-98.  [now] is the reading of [datetime.now()]. *)
Definition save_new_magang (db : database) (now : datetime)
  (magang_id magang_name : string) (embedding_array : ndarray F)
  : database * (bool * string) :=
  let embedding_blob := tobytes_float32 embedding_array in
  let current_time := strftime now in
  match magang db with
  | Some rows =>
      ({| magang :=
            Some (insert_or_replace
                    {| row_id := magang_id; row_nama := magang_name;
                       row_master_embedding := embedding_blob;
                       row_last_updated := current_time |} rows);
          absensi := absensi db |},
       (true,
        ("Data Magang '" ++ magang_name
         ++ "' berhasil disimpan/diperbarui.")%string))
  | None => (db, (false, "Gagal menyimpan data magang: no such table: magang"))
  end.

(** The body of the loop of [load_all_magang_embeddings], lines 113-122. *)
Definition load_row (row : magang_row) : Exc (magang_entry F) :=
  embedding_array <- np_frombuffer_float32 (row_master_embedding row) ;;
  Ok {| id := row_id row; name := row_nama row; embedding := embedding_array |}.

(** Lines 100-130. *)
Definition load_all_magang_embeddings (db : database)
  : Exc (list (magang_entry F)) :=
  match magang db with
  | Some rows => sequence (map load_row rows)
  | None => Ok []
  end.

End Store.

(** A parameter with a default: [None] is a call that leaves it out. *)
Definition default_arg {A : Type} (default : A) (arg : option A) : A :=
  match arg with
  | Some a => a
  | None => default
  end.

(** A parameter without default: a call that leaves it out raises
    [TypeError] before the body runs. *)
Definition required_arg {A : Type} (arg : option A) : Exc A :=
  match arg with
  | Some a => Ok a
  | None => Raise TypeError
  end.

(** The [WHERE] clause of [check_already_absen]; TEXT columns compare
    byte-wise. *)
Definition where_absen (magang_id log_type' today : string) (r : absensi_row)
  : bool :=
  String.eqb (log_magang_id r) magang_id
  && String.eqb (log_type r) log_type'
  && String.leb today (log_timestamp r).

(** [SELECT 1 FROM absensi WHERE ... LIMIT 1] *)
Definition select_absen (db : database) (magang_id log_type' today : string)
  : Exc (list absensi_row) :=
  rows <- table (absensi db) ;;
  Ok (firstn 1 (filter (where_absen magang_id log_type' today) rows)).

(** [cursor.fetchone() is not None] *)
Definition fetchone_is_not_None {A : Type} (result : list A) : bool :=
  match result with
  | [] => false
  | _ :: _ => true
  end.

(** Lines 132-159.  [now] is the clock reading behind [date.today()];
    [log_type'] is the parameter [log_type = 'MASUK']. *)
Definition check_already_absen (db : database) (now : datetime)
  (magang_id : string) (log_type' : option string) : Exc bool :=
  let log_type' := default_arg "MASUK" log_type' in
  except_sqlite3
    (result <- select_absen db magang_id log_type' (today_start now) ;;
     Ok (fetchone_is_not_None result))
    false.

(** [INSERT INTO absensi (magang_id, nama, timestamp, type)] *)
Definition insert_absensi (db : database)
  (magang_id magang_name log_time log_type' : string) : Exc database :=
  rows <- table (absensi db) ;;
  Ok {| magang := magang db;
        absensi :=
          Some (rows ++ [{| log_id := next_rowid rows;
                            log_magang_id := magang_id;
                            log_nama := magang_name;
                            log_timestamp := log_time;
                            log_type := log_type' |}]) |}.

(** Lines 161-182.  [log_time] has no default, [log_type = 'MASUK']
    has one. *)
Definition update_absensi_log (db : database) (magang_id magang_name : string)
  (log_time log_type' : option string) : Exc database :=
  log_time <- required_arg log_time ;;
  let log_type' := default_arg "MASUK" log_type' in
  except_sqlite3 (insert_absensi db magang_id magang_name log_time log_type')
                 db.

(** utils.py, lines 90-121: [DELETE FROM absensi]; as in
    [clear_magang_table] the reset of [sqlite_sequence] touches no table of
    the model. *)
Definition reset_absensi_log (db : database) : database :=
  match absensi db with
  | Some _ => {| magang := magang db; absensi := Some [] |}
  | None => db
  end.

(** The identity records and the attendance events of a database. *)
Definition identity_records (db : database) : list magang_row :=
  match magang db with Some rows => rows | None => [] end.

Definition ledger (db : database) : list absensi_row :=
  match absensi db with Some rows => rows | None => [] end.

(* ================================================================== *)
(** * Enrollment: training_embedding.py *)
(* ================================================================== *)

Definition BATCH_SIZE : nat := 32.

Section Training.

Context {F : Type} {Num : Numeric F}.

(** A decoded image file. *)
Variable image : Type.

(** MTCNN followed by InceptionResnetV1 on one batch (lines 110-123): the
    embeddings of the faces that were detected, none when no face was, or
    the exception the models raised. *)
Variable embed_batch : list image -> Exc (list (ndarray F)).

(** An element of [magang_list], with the image files [os.listdir] finds
    in its path. *)
Record magang_folder : Type := {
  folder_id : string;
  folder_name : string;
  folder_images : list image
}.

(** The reading of [datetime.now()] when a folder's record is saved. *)
Variable clock : magang_folder -> datetime.

Definition vec_add (a b : ndarray F) : ndarray F :=
  map (fun xy => fadd (fst xy) (snd xy)) (combine a b).

(** [np.mean(embeddings, axis=0)] of the non-empty list [first :: rest]:
    the rows are added up from the first on and the sum is divided by
    their number; rows of different lengths are a [ValueError]. *)
Definition np_mean_axis0 (first : ndarray F) (rest : list (ndarray F))
  : Exc (ndarray F) :=
  if forallb (fun e => Nat.eqb (List.length e) (List.length first)) rest
  then Ok (map (fun s => fdiv_count s (S (List.length rest)))
               (fold_left vec_add rest first))
  else Raise ValueError.

(** [image_files[i:i + BATCH_SIZE]] for [i] in
    [range(0, len(image_files), BATCH_SIZE)]. *)
Definition batches (image_files : list image) : list (list image) :=
  map (fun k => firstn BATCH_SIZE (skipn (k * BATCH_SIZE) image_files))
      (seq 0 ((List.length image_files + BATCH_SIZE - 1) / BATCH_SIZE)).

(** One turn of the batch loop, lines 105-131: a batch without faces or
    with an exception adds nothing. *)
Definition extend_with_batch (embeddings : list (ndarray F))
  (batch_files : list image) : list (ndarray F) :=
  match embed_batch batch_files with
  | Ok batch_embeddings => embeddings ++ batch_embeddings
  | Raise _ => embeddings
  end.

Definition collect_embeddings (image_files : list image) : list (ndarray F) :=
  fold_left extend_with_batch (batches image_files) [].

(** Lines 133-143 of [process_and_save_embeddings]: the aggregation of one
    identity's embeddings and its upsert.  Returns the database and the
    number added to [total_wajah_diproses]. *)
Definition aggregate_and_store (db : database) (now : datetime)
  (magang_id magang_name : string) (embeddings : list (ndarray F))
  : Exc (database * nat) :=
  match embeddings with
  | [] => Ok (db, 0)
  | first :: rest =>
      avg_embedding <- np_mean_axis0 first rest ;;
      let total := List.length embeddings in
      let '(db', _) :=
        save_new_magang db now magang_id magang_name avg_embedding in
      Ok (db', total)
  end.

(** The body of the loop over [magang_list], lines 91-143. *)
Definition process_magang (st : database * nat) (magang : magang_folder)
  : Exc (database * nat) :=
  let '(db, total_wajah_diproses) := st in
  match folder_images magang with
  | [] => Ok st
  | _ :: _ =>
      let embeddings := collect_embeddings (folder_images magang) in
      '(db', n) <- aggregate_and_store db (clock magang) (folder_id magang)
                     (folder_name magang) embeddings ;;
      Ok (db', total_wajah_diproses + n)
  end.

(** Lines 52-152.  [dataset] is [None] when [DATA_ROOT] does not exist,
    otherwise the result of [get_magang_folders]. *)
Definition process_and_save_embeddings (db : database)
  (dataset : option (list magang_folder)) : Exc (database * nat) :=
  match dataset with
  | None => Ok (db, 0)
  | Some [] => Ok (db, 0)
  | Some magang_list =>
      for_each process_magang magang_list (clear_magang_table db, 0)
  end.

End Training.

Arguments folder_id {image} m.
Arguments folder_name {image} m.
Arguments folder_images {image} m.

(* ================================================================== *)
(** * The endpoint: server_main.py *)
(* ================================================================== *)

Section Server.

Context {F : Type} {Num : Numeric F}.

(** What [absensi_endpoint] answers: a [JSONResponse] with its status code
    and the fields [status], [magang_id] and [distance] of its content, or
    the [HTTPException] raised by the handler of line 193. *)
Inductive response : Type :=
| JSONResponse (status_code : nat) (status : string)
    (magang_id : option string) (distance : option F)
| HTTPException (status_code : nat) (cause : exn).

(** Lines 133-198.  [face] is the outcome of lines 141-158 on the
    uploaded file: the live embedding, [None] when MTCNN finds no face, or
    an exception.  The text-to-speech side effect is left out. *)
Definition absensi_endpoint (db : database)
  (MAGANG_EMBEDDINGS : list (magang_entry F))
  (face : Exc (option (ndarray F))) : database * response :=
  let body : Exc (database * response) :=
    face_embedding <- face ;;
    match face_embedding with
    | None => Ok (db, JSONResponse 400 "FAIL" None None)
    | Some live_embedding =>
        '(id_magang, distance, nama) <-
           recognize_face MAGANG_EMBEDDINGS live_embedding ;;
        if negb (String.eqb id_magang "UNKNOWN")
        then
          db' <- update_absensi_log db id_magang nama None None ;;
          Ok (db', JSONResponse 200 "SUCCESS" (Some id_magang) (Some distance))
        else Ok (db, JSONResponse 403 "FAIL" None (Some distance))
    end in
  match body with
  | Ok r => r
  | Raise e => (db, HTTPException 500 e)
  end.

End Server.

Arguments response F : clear implicits.

(* ================================================================== *)
(** * The operations of the store as a transition system *)
(* ================================================================== *)

Section Operations.

Context {F : Type} {Num : Numeric F}.

(** One call of a function of _data_persistance.py, or of the reset of
    utils.py. *)
Inductive store_op : Type :=
| OpCreateInitialTables
| OpClearMagangTable
| OpSaveNewMagang (now : datetime) (magang_id magang_name : string)
    (embedding_array : ndarray F)
| OpLoadAllMagangEmbeddings
| OpCheckAlreadyAbsen (now : datetime) (magang_id : string)
    (log_type' : option string)
| OpUpdateAbsensiLog (magang_id magang_name : string)
    (log_time log_type' : option string)
| OpResetAbsensiLog.

(** The database after the call. *)
Definition run_op (db : database) (op : store_op) : database :=
  match op with
  | OpCreateInitialTables => create_initial_tables db
  | OpClearMagangTable => clear_magang_table db
  | OpSaveNewMagang now magang_id magang_name embedding_array =>
      fst (save_new_magang db now magang_id magang_name embedding_array)
  | OpLoadAllMagangEmbeddings => db
  | OpCheckAlreadyAbsen _ _ _ => db
  | OpUpdateAbsensiLog magang_id magang_name log_time log_type' =>
      match update_absensi_log db magang_id magang_name log_time log_type' with
      | Ok db' => db'
      | Raise _ => db
      end
  | OpResetAbsensiLog => reset_absensi_log db
  end.

End Operations.

Arguments store_op F : clear implicits.

(** At most one identity record per id. *)
Definition unique_ids (db : database) : Prop :=
  NoDup (map row_id (identity_records db)).

(** The identity record stored under an id, if any. *)
Definition find_magang (magang_id : string) (db : database)
  : option magang_row :=
  find (fun r => String.eqb (row_id r) magang_id) (identity_records db).

(** How many identity records carry an id. *)
Definition count_magang (magang_id : string) (db : database) : nat :=
  List.length
    (filter (fun r => String.eqb (row_id r) magang_id) (identity_records db)).

(** The database after a history of calls on a new file. *)
Definition run_ops {F : Type} {Num : Numeric F} (ops : list (store_op F))
  : database :=
  fold_left run_op ops empty_database.

(** A BLOB that holds whole 32-bit words. *)
Definition whole_words (blob : list byte) : Prop :=
  List.length blob mod 4 = 0.


(* ================================================================== *)
(** * The vocabulary of the statements *)
(* ================================================================== *)

(** IEEE comparison is a strict weak order once [NaN] is set aside.  The
    scan only compares the distances it computed and [float('inf')], so
    the order is asked of those values alone. *)
Definition strict_weak_order_on {F : Type} {Num : Numeric F} (V : list F)
  : Prop :=
  (forall a, In a V -> flt a a = false) /\
  (forall a b c, In a V -> In b V -> In c V ->
     flt a b = true -> flt b c = true -> flt a c = true) /\
  (forall a b c, In a V -> In b V -> In c V ->
     flt a b = true -> flt a c = true \/ flt c b = true).

(** What the scan knows after the entries [ms], whose distances are [ds]:
    either nothing was nearer than [float('inf')], or the state holds the
    first entry of least distance. *)
Definition scan_invariant {F : Type} {Num : Numeric F}
  (ms : list (magang_entry F)) (ds : list F) (st : scan_state F) : Prop :=
  let '(min_distance, best_match_id, best_match_name) := st in
  (min_distance = finf /\ best_match_id = "UNKNOWN" /\
   best_match_name = "UNKNOWN" /\
   forall d, In d ds -> flt d finf = false)
  \/
  (exists k magang,
     nth_error ms k = Some magang /\ nth_error ds k = Some min_distance /\
     best_match_id = id magang /\ best_match_name = name magang /\
     flt min_distance finf = true /\
     (forall d, In d ds -> flt d min_distance = false) /\
     (forall j d, j < k -> nth_error ds j = Some d ->
        flt min_distance d = true)).

(** The mean of the [j]-th coordinates of a list of embeddings: their sum,
    taken in order, divided by the number of embeddings. *)
Definition coordinate_mean {F : Type} {Num : Numeric F}
  (embeddings : list (ndarray F)) (j : nat) : F :=
  match map (fun e => nth j e fzero) embeddings with
  | [] => fzero
  | x :: xs => fdiv_count (fold_left fadd xs x) (List.length embeddings)
  end.

(* ================================================================== *)
(** * Concrete inputs and proof tactics *)
(* ================================================================== *)

Definition noon_2025_01_15 : datetime :=
  {| year := 2025; month := 1; day := 15; hour := 12; minute := 0; second := 0 |}.

Definition database_with_tables : database :=
  create_initial_tables empty_database.

Definition morning_2025_01_15 : datetime :=
  {| year := 2025; month := 1; day := 15; hour := 8; minute := 0; second := 0 |}.

Definition last_second_2025_01_14 : datetime :=
  {| year := 2025; month := 1; day := 14;
     hour := 23; minute := 59; second := 59 |}.

(** A ledger with an entry of today for A001 and one of yesterday for
    A002. *)
Definition database_with_ledger : database :=
  {| magang := Some [];
     absensi :=
       Some [ {| log_id := 1; log_magang_id := "A002"; log_nama := "Budi";
                 log_timestamp := strftime last_second_2025_01_14;
                 log_type := "MASUK" |};
              {| log_id := 2; log_magang_id := "A001"; log_nama := "Ana";
                 log_timestamp := strftime morning_2025_01_15;
                 log_type := "MASUK" |} ] |}.

(** A roster with one record, A001. *)
Definition database_with_ana : database :=
  fst (save_new_magang database_with_tables morning_2025_01_15 "A001" "Ana"
         [1; 0]%float).

(** An extractor for which an image is its own embedding, and a dataset
    of two folders, the second without images. *)
Definition identity_extractor (batch_files : list (ndarray float))
  : Exc (list (ndarray float)) :=
  Ok batch_files.

Definition two_folders : list (magang_folder (ndarray float)) :=
  [ {| folder_id := "Ana"; folder_name := "Ana";
       folder_images := [[1; 2]; [3; 4]]%float |};
    {| folder_id := "Budi"; folder_name := "Budi"; folder_images := [] |} ].

(** The result of the enrollment run on [two_folders], started on a
    database that holds the record A001. *)
Definition enrolled_two_folders : database * nat :=
  match process_and_save_embeddings (ndarray float) identity_extractor
          (fun _ => noon_2025_01_15) database_with_ana (Some two_folders) with
  | Ok r => r
  | Raise _ => (empty_database, 0)
  end.

(** A roster in which the first and the third entry are equally near to
    [[1; 0]]. *)
Definition roster_with_tie : list (magang_entry float) :=
  [ {| id := "A001"; name := "Ana"; embedding := [1; 0]%float |};
    {| id := "A002"; name := "Budi"; embedding := [0; 1]%float |};
    {| id := "A003"; name := "Cici"; embedding := [1; 0]%float |} ].

(** Arithmetic of decimal digits: linear once every quotient and
    remainder is named. *)
Ltac digit_arith := zify; Z.to_euclidean_division_equations; lia.

Ltac valid_by_computation := unfold valid_datetime; simpl; lia.

(* ================================================================== *)
(** * Properties of the error monad *)
(* ================================================================== *)

Lemma bind_Ok_inv {A B : Type} (c : Exc A) (k : A -> Exc B) (b : B) :
  bind c k = Ok b -> exists a, c = Ok a /\ k a = Ok b.
Proof.
  destruct c as [a | e]; simpl; intros H.
  - exists a. split; [reflexivity | exact H].
  - discriminate H.
Qed.

Lemma bind_Raise_inv {A B : Type} (c : Exc A) (k : A -> Exc B) (e : exn) :
  bind c k = Raise e -> c = Raise e \/ exists a, c = Ok a /\ k a = Raise e.
Proof.
  destruct c as [a | e']; simpl; intros H.
  - right. exists a. split; [reflexivity | exact H].
  - left. injection H as ->. reflexivity.
Qed.

Lemma sequence_cons_inv {A : Type} (c : Exc A) (l : list (Exc A))
  (r : list A) :
  sequence (c :: l) = Ok r ->
  exists a r', c = Ok a /\ sequence l = Ok r' /\ r = a :: r'.
Proof.
  simpl. intros H.
  apply bind_Ok_inv in H. destruct H as [a [Hc H]].
  apply bind_Ok_inv in H. destruct H as [r' [Hl H]].
  injection H as <-. exists a, r'. auto.
Qed.

Lemma sequence_app {A : Type} (l1 l2 : list (Exc A)) (r1 r2 : list A) :
  sequence l1 = Ok r1 -> sequence l2 = Ok r2 ->
  sequence (l1 ++ l2) = Ok (r1 ++ r2).
Proof.
  revert r1. induction l1 as [| c l1 IH]; intros r1 H1 H2.
  - injection H1 as <-. exact H2.
  - apply sequence_cons_inv in H1. destruct H1 as [a [r' [-> [Hl ->]]]].
    simpl. rewrite (IH r' Hl H2). reflexivity.
Qed.

Lemma sequence_length {A : Type} (l : list (Exc A)) (r : list A) :
  sequence l = Ok r -> List.length r = List.length l.
Proof.
  revert r. induction l as [| c l IH]; intros r H.
  - injection H as <-. reflexivity.
  - apply sequence_cons_inv in H. destruct H as [a [r' [_ [Hl ->]]]].
    simpl. f_equal. apply IH. exact Hl.
Qed.

(* ================================================================== *)
(** * RecognitionEngine: the distance and the scan *)
(* ================================================================== *)

Section RecognitionProofs.

Context {F : Type} {Num : Numeric F}.

Lemma np_dot_aligned (a b : ndarray F) :
  List.length a = List.length b -> exists dot_product, np_dot a b = Ok dot_product.
Proof.
  intros H. unfold np_dot. rewrite H, Nat.eqb_refl. eauto.
Qed.

(** C3.  On two embeddings of one dimension: when either norm is zero
    the distance is exactly 1.0, whatever the division operator would do
    (it is not called); an exception can only come out of the division
    itself, and then both norms are non-zero and the divisor is their
    product; so where division faults on a zero divisor only, and the
    product of two non-zero norms is non-zero, every call returns. *)
Theorem cosine_distance_zero_norm_guard (emb1 emb2 : ndarray F) :
  List.length emb1 = List.length emb2 ->
  (feq (np_linalg_norm emb1) fzero = true \/
   feq (np_linalg_norm emb2) fzero = true ->
   calculate_cosine_distance emb1 emb2 = Ok fone) /\
  (forall e, calculate_cosine_distance emb1 emb2 = Raise e ->
     feq (np_linalg_norm emb1) fzero = false /\
     feq (np_linalg_norm emb2) fzero = false /\
     exists dot_product,
       np_dot emb1 emb2 = Ok dot_product /\
       fdiv dot_product (fmul (np_linalg_norm emb1) (np_linalg_norm emb2))
       = Raise e) /\
  ((forall a b, feq b fzero = false -> exists q, fdiv a b = Ok q) ->
   (feq (np_linalg_norm emb1) fzero = false ->
    feq (np_linalg_norm emb2) fzero = false ->
    feq (fmul (np_linalg_norm emb1) (np_linalg_norm emb2)) fzero = false) ->
   exists d, calculate_cosine_distance emb1 emb2 = Ok d).
Proof.
  intros Hlen.
  destruct (np_dot_aligned emb1 emb2 Hlen) as [dp Hdp].
  unfold calculate_cosine_distance, flatten. rewrite Hdp. simpl.
  destruct (feq (np_linalg_norm emb1) fzero) eqn:H1;
    destruct (feq (np_linalg_norm emb2) fzero) eqn:H2; simpl.
  1-3: (split; [reflexivity |]; split; [discriminate | eauto]).
  split; [intros [H | H]; discriminate H |].
  split.
  - intros e He. repeat split.
    exists dp. split; [reflexivity |].
    destruct (fdiv dp _) as [q | e'] eqn:Hq; simpl in He.
    + discriminate He.
    + exact He.
  - intros Hdiv Hprod.
    destruct (Hdiv dp _ (Hprod eq_refl eq_refl)) as [q Hq].
    rewrite Hq. simpl. eauto.
Qed.

(** C4.  With an empty roster the answer is the constant
    [("UNKNOWN", 999.0, "UNKNOWN")], the distance being the sentinel the
    code returns for "no roster", for every live embedding, and the scan
    computes no distance. *)
Theorem recognize_face_empty_roster (live_embedding : ndarray F) :
  recognize_face [] live_embedding = Ok ("UNKNOWN", f999, "UNKNOWN") /\
  distances [] live_embedding = [].
Proof.
  split.
  - unfold recognize_face. reflexivity.
  - unfold distances. reflexivity.
Qed.

Lemma scan_step_invariant (live_embedding : ndarray F) (V : list F)
  (ms : list (magang_entry F)) (ds : list F) (st : scan_state F)
  (magang : magang_entry F) (d : F) :
  strict_weak_order_on V -> In finf V -> (forall x, In x ds -> In x V) ->
  In d V -> List.length ms = List.length ds ->
  scan_invariant ms ds st ->
  calculate_cosine_distance live_embedding (flatten (embedding magang)) = Ok d ->
  exists st',
    scan_step live_embedding st magang = Ok st' /\
    scan_invariant (ms ++ [magang]) (ds ++ [d]) st'.
Proof.
  intros [Hirr [Htrans Hcot]] Hinf Hds Hd Hlen Hinv Hdist.
  destruct st as [[m bid] bname]. unfold scan_step. rewrite Hdist. simpl.
  destruct (flt d m) eqn:Hlt.
  - (* the entry is nearer: it becomes the best match *)
    eexists. split; [reflexivity |]. right.
    exists (List.length ms), magang.
    assert (Hm : In m V).
    { destruct Hinv as [[-> _] | [k [mg [_ [Hk _]]]]]; [exact Hinf |].
      apply Hds. eapply nth_error_In. exact Hk. }
    assert (Hbelow : forall x, In x ds -> flt x m = false).
    { destruct Hinv as [[-> [_ [_ H]]] | [k [mg [_ [_ [_ [_ [_ [H _]]]]]]]]];
        exact H. }
    assert (Hfin : flt d finf = true).
    { destruct Hinv as [[-> _] | [k [mg [_ [_ [_ [_ [H _]]]]]]]];
        [exact Hlt |].
      exact (Htrans d m finf Hd Hm Hinf Hlt H). }
    split; [rewrite nth_error_app2, Nat.sub_diag by lia; reflexivity |].
    split; [rewrite Hlen, nth_error_app2, Nat.sub_diag by lia; reflexivity |].
    split; [reflexivity |]. split; [reflexivity |]. split; [exact Hfin |].
    split.
    + intros x Hx. apply in_app_or in Hx. destruct Hx as [Hx | [<- | []]].
      * destruct (flt x d) eqn:Hxd; [| reflexivity].
        rewrite <- (Hbelow x Hx). symmetry.
        exact (Htrans x d m (Hds x Hx) Hd Hm Hxd Hlt).
      * apply Hirr. exact Hd.
    + intros j x Hj Hx. rewrite nth_error_app1 in Hx by lia.
      assert (Hx' : In x ds) by (eapply nth_error_In; exact Hx).
      destruct (Hcot d m x Hd Hm (Hds x Hx') Hlt) as [H | H]; [exact H |].
      rewrite (Hbelow x Hx') in H. discriminate H.
  - (* the best match stays *)
    eexists. split; [reflexivity |].
    destruct Hinv as [[-> [-> [-> H]]] | [k [mg [Hk [Hk' [-> [-> [Hfin [Hmin Hfirst]]]]]]]]].
    + left. repeat split; try reflexivity.
      intros x Hx. apply in_app_or in Hx. destruct Hx as [Hx | [<- | []]];
        [apply H; exact Hx | exact Hlt].
    + right. exists k, mg.
      assert (Hkl : k < List.length ds) by (apply nth_error_Some; congruence).
      split; [rewrite nth_error_app1 by lia; exact Hk |].
      split; [rewrite nth_error_app1 by lia; exact Hk' |].
      split; [reflexivity |]. split; [reflexivity |]. split; [exact Hfin |].
      split.
      * intros x Hx. apply in_app_or in Hx. destruct Hx as [Hx | [<- | []]];
          [apply Hmin; exact Hx | exact Hlt].
      * intros j x Hj Hx. rewrite nth_error_app1 in Hx by lia.
        exact (Hfirst j x Hj Hx).
Qed.

Lemma scan_loop_invariant (live_embedding : ndarray F) (V : list F) :
  strict_weak_order_on V -> In finf V ->
  forall (rest : list (magang_entry F)) (rest_ds : list F)
         (ms : list (magang_entry F)) (ds : list F) (st : scan_state F),
    sequence (distances rest live_embedding) = Ok rest_ds ->
    (forall x, In x (ds ++ rest_ds) -> In x V) ->
    List.length ms = List.length ds ->
    scan_invariant ms ds st ->
    exists st',
      for_each (scan_step live_embedding) rest st = Ok st' /\
      scan_invariant (ms ++ rest) (ds ++ rest_ds) st'.
Proof.
  intros Hswo Hinf.
  induction rest as [| magang rest IH]; intros rest_ds ms ds st Hseq HV Hlen Hinv.
  - injection Hseq as <-. exists st. rewrite !app_nil_r. auto.
  - apply sequence_cons_inv in Hseq.
    destruct Hseq as [d [rest_ds' [Hd [Hseq ->]]]].
    destruct (scan_step_invariant live_embedding V ms ds st magang d)
      as [st1 [Hstep Hinv1]]; auto.
    + intros x Hx. apply HV. apply in_or_app. left. exact Hx.
    + apply HV. apply in_or_app. right. left. reflexivity.
    + destruct (IH rest_ds' (ms ++ [magang]) (ds ++ [d]) st1 Hseq)
        as [st' [Hloop Hinv']]; auto.
      * intros x Hx. apply HV. rewrite <- app_assoc in Hx. exact Hx.
      * rewrite !length_app. simpl. lia.
      * exists st'. simpl. rewrite Hstep. simpl.
        rewrite <- !app_assoc in Hinv'. auto.
Qed.

(** The scan performs the computations of [distances], in order, and
    raises what the first failing one raises. *)
Lemma scan_raises_iff (live_embedding : ndarray F)
  (ms : list (magang_entry F)) (st : scan_state F) (e : exn) :
  for_each (scan_step live_embedding) ms st = Raise e <->
  sequence (distances ms live_embedding) = Raise e.
Proof.
  revert st. induction ms as [| magang ms IH]; intros st.
  - simpl. split; discriminate.
  - destruct st as [[m bid] bname].
    change (distances (magang :: ms) live_embedding)
      with (calculate_cosine_distance live_embedding
              (flatten (embedding magang)) :: distances ms live_embedding).
    cbn [for_each sequence]. unfold scan_step.
    destruct (calculate_cosine_distance live_embedding
                (flatten (embedding magang))) as [d | e'].
    + cbn [bind]. destruct (flt d m); cbn [bind]; rewrite IH;
        destruct (sequence (distances ms live_embedding)); cbn [bind];
        split; congruence.
    + cbn [bind]. split; congruence.
Qed.

Lemma recognize_face_raises_iff (MAGANG_EMBEDDINGS : list (magang_entry F))
  (live_embedding : ndarray F) (e : exn) :
  recognize_face MAGANG_EMBEDDINGS live_embedding = Raise e <->
  sequence (distances MAGANG_EMBEDDINGS live_embedding) = Raise e.
Proof.
  destruct MAGANG_EMBEDDINGS as [| magang ms].
  - simpl. split; discriminate.
  - rewrite <- (scan_raises_iff live_embedding (magang :: ms)
                  (finf, "UNKNOWN", "UNKNOWN") e).
    unfold recognize_face.
    destruct (for_each (scan_step live_embedding) (magang :: ms)
                (finf, "UNKNOWN", "UNKNOWN")) as [[[m bid] bname] | e'].
    + cbn [bind]. destruct (fgt m SIMILARITY_THRESHOLD); split; discriminate.
    + cbn [bind]. split; congruence.
Qed.

(** C2.  On a roster that is not empty, whose distances [ds] to the live
    embedding are numbers (all computed, ordered by [<], below
    [float('inf')]): the returned distance is that of some entry [k], no
    entry is nearer, every entry scanned before [k] is strictly farther,
    and the answer is [("UNKNOWN", min_distance, "UNKNOWN")] when
    [min_distance > SIMILARITY_THRESHOLD], the id and name of entry [k]
    with [min_distance] otherwise. *)
Theorem recognize_face_first_minimum
  (MAGANG_EMBEDDINGS : list (magang_entry F)) (live_embedding : ndarray F)
  (ds : list F) :
  MAGANG_EMBEDDINGS <> [] ->
  sequence (distances MAGANG_EMBEDDINGS live_embedding) = Ok ds ->
  strict_weak_order_on (finf :: ds) ->
  Forall (fun d => flt d finf = true) ds ->
  exists k magang min_distance,
    nth_error MAGANG_EMBEDDINGS k = Some magang /\
    nth_error ds k = Some min_distance /\
    (forall d, In d ds -> flt d min_distance = false) /\
    (forall j d, j < k -> nth_error ds j = Some d ->
       flt min_distance d = true) /\
    recognize_face MAGANG_EMBEDDINGS live_embedding =
    Ok (if fgt min_distance SIMILARITY_THRESHOLD
        then ("UNKNOWN", min_distance, "UNKNOWN")
        else (id magang, min_distance, name magang)).
Proof.
  intros Hne Hseq Hswo Hfin.
  destruct (scan_loop_invariant live_embedding (finf :: ds) Hswo
              (or_introl eq_refl) MAGANG_EMBEDDINGS ds [] []
              (finf, "UNKNOWN", "UNKNOWN") Hseq)
    as [[[m bid] bname] [Hloop Hinv]].
  - intros x Hx. right. exact Hx.
  - reflexivity.
  - left. repeat split. intros d [].
  - simpl in Hinv.
    destruct Hinv as [[_ [_ [_ Hnone]]] | [k [mg [Hk [Hk' [-> [-> [_ [Hmin Hfirst]]]]]]]]].
    + (* some entry is below float('inf'): the state cannot be the initial one *)
      exfalso. destruct MAGANG_EMBEDDINGS as [| m0 ms]; [congruence |].
      apply sequence_cons_inv in Hseq. destruct Hseq as [d [ds' [_ [_ ->]]]].
      inversion Hfin as [| ? ? Hd _]; subst.
      rewrite (Hnone d (or_introl eq_refl)) in Hd. discriminate Hd.
    + exists k, mg, m. repeat split; auto.
      unfold recognize_face.
      destruct MAGANG_EMBEDDINGS as [| m0 ms]; [congruence |].
      rewrite Hloop. simpl.
      destruct (fgt m SIMILARITY_THRESHOLD); reflexivity.
Qed.

End RecognitionProofs.

(** ** Binary64: the order without NaN, the bit patterns, the scan *)

Module Float64Facts.

Import Float64.

Lemma SFltb_key (x y : spec_float) :
  x <> S754_nan -> y <> S754_nan ->
  (SFltb x y = true <-> key_lt (sf_key x) (sf_key y)).
Proof.
  intros Hx Hy. unfold SFltb.
  destruct x as [sx | sx | | sx mx ex]; try congruence;
    destruct y as [sy | sy | | sy my ey]; try congruence;
    try destruct sx; try destruct sy; simpl;
    try (split; [discriminate | lia]);
    try (split; [lia | reflexivity]).
  - change (Pos.compare_cont Eq mx my) with (Pos.compare mx my).
    destruct (Z.compare_spec ex ey); destruct (Pos.compare_spec mx my); simpl;
      split; try discriminate; try reflexivity; lia.
  - change (Pos.compare_cont Eq mx my) with (Pos.compare mx my).
    destruct (Z.compare_spec ex ey); destruct (Pos.compare_spec mx my); simpl;
      split; try discriminate; try reflexivity; lia.
Qed.

Lemma Prim2SF_not_nan (d : float) :
  PrimFloat.is_nan d = false -> Prim2SF d <> S754_nan.
Proof.
  unfold Prim2SF. intros ->.
  destruct (PrimFloat.is_zero d); [discriminate |].
  destruct (PrimFloat.is_infinity d); [discriminate |].
  destruct (FloatOps.Z.frexp d) as [r e].
  destruct (shr_fexp _ _ _ _ _) as [sh e'].
  destruct (shr_m sh); discriminate.
Qed.

Lemma ltb_key (a b : float) :
  PrimFloat.is_nan a = false -> PrimFloat.is_nan b = false ->
  (PrimFloat.ltb a b = true <-> key_lt (float_key a) (float_key b)).
Proof.
  intros Ha Hb. rewrite FloatAxioms.ltb_spec.
  apply SFltb_key; apply Prim2SF_not_nan; assumption.
Qed.

Lemma key_lt_irrefl (k : Z * Z * Z) : ~ key_lt k k.
Proof. destruct k as [[a b] c]. simpl. lia. Qed.

Lemma key_lt_trans (a b c : Z * Z * Z) :
  key_lt a b -> key_lt b c -> key_lt a c.
Proof.
  destruct a as [[a1 a2] a3], b as [[b1 b2] b3], c as [[c1 c2] c3].
  simpl. lia.
Qed.

Lemma key_lt_cotrans (a b c : Z * Z * Z) :
  key_lt a b -> key_lt a c \/ key_lt c b.
Proof.
  destruct a as [[a1 a2] a3], b as [[b1 b2] b3], c as [[c1 c2] c3].
  simpl. lia.
Qed.

(** Binary64 values other than [NaN] are in a strict weak order: the
    hypothesis of the scan's theorem says of floats that no distance is
    [NaN]. *)
Lemma non_nan_strict_weak_order (V : list float) :
  Forall (fun d => PrimFloat.is_nan d = false) V -> strict_weak_order_on V.
Proof.
  intros HV. rewrite Forall_forall in HV. repeat split.
  - intros a Ha. destruct (flt a a) eqn:E; [| reflexivity].
    apply (ltb_key a a (HV a Ha) (HV a Ha)) in E.
    destruct (key_lt_irrefl _ E).
  - intros a b c Ha Hb Hc Hab Hbc.
    apply (ltb_key a b (HV a Ha) (HV b Hb)) in Hab.
    apply (ltb_key b c (HV b Hb) (HV c Hc)) in Hbc.
    apply (ltb_key a c (HV a Ha) (HV c Hc)).
    exact (key_lt_trans _ _ _ Hab Hbc).
  - intros a b c Ha Hb Hc Hab.
    apply (ltb_key a b (HV a Ha) (HV b Hb)) in Hab.
    destruct (key_lt_cotrans _ _ (float_key c) Hab) as [H | H].
    + left. apply (ltb_key a c (HV a Ha) (HV c Hc)). exact H.
    + right. apply (ltb_key c b (HV c Hc) (HV b Hb)). exact H.
Qed.

Lemma pack32_range (s : bool) (expo frac : N) :
  (pack32 s expo frac < 2 ^ 32)%N.
Proof.
  unfold pack32.
  replace (2 ^ 32)%N with 4294967296%N by reflexivity.
  replace (2 ^ 31)%N with 2147483648%N by reflexivity.
  replace (2 ^ 23)%N with 8388608%N by reflexivity.
  replace (2 ^ 8)%N with 256%N by reflexivity.
  pose proof (N.mod_upper_bound expo 256).
  pose proof (N.mod_upper_bound frac 8388608).
  destruct s; lia.
Qed.

(** The bit pattern of a cast value fits in 32 bits. *)
Lemma bits32_range (x : float) : (bits32 x < 2 ^ 32)%N.
Proof.
  unfold bits32, encode32.
  destruct (round32 x) as [s | s | | s m e]; try apply pack32_range.
  destruct (N.ltb (N.pos m) (2 ^ 23)); apply pack32_range.
Qed.

(** With numpy's division, which never raises, the distance of two
    embeddings of one dimension is always returned. *)
Lemma cosine_distance_returns (emb1 emb2 : ndarray float) :
  List.length emb1 = List.length emb2 ->
  exists d, calculate_cosine_distance emb1 emb2 = Ok d.
Proof.
  intros Hlen. unfold calculate_cosine_distance, flatten, np_dot.
  rewrite Hlen, Nat.eqb_refl. cbn [bind].
  destruct (feq (np_linalg_norm emb1) fzero || feq (np_linalg_norm emb2) fzero);
    cbn [bind fdiv float_Numeric]; eauto.
Qed.

End Float64Facts.

Local Open Scope float_scope.

Lemma cosine_distance_zero_norm_guard_witness :
  List.length [0; 0] = List.length [3; 4] /\
  @calculate_cosine_distance float Float64.strict_Numeric [0; 0] [3; 4] = Ok 1.
Proof.
  split; [reflexivity |].
  apply (@cosine_distance_zero_norm_guard float Float64.strict_Numeric
           [0; 0] [3; 4] eq_refl).
  left. vm_compute. reflexivity.
Defined.

Lemma recognize_face_first_minimum_witness :
  exists k magang min_distance,
    nth_error roster_with_tie k = Some magang /\
    nth_error [0; 1; 0] k = Some min_distance /\
    (forall d, In d [0; 1; 0] -> flt d min_distance = false) /\
    (forall j d, j < k -> nth_error [0; 1; 0] j = Some d ->
       flt min_distance d = true) /\
    recognize_face roster_with_tie [1; 0] =
    Ok (if fgt min_distance SIMILARITY_THRESHOLD
        then ("UNKNOWN"%string, min_distance, "UNKNOWN"%string)
        else (id magang, min_distance, name magang)).
Proof.
  apply (recognize_face_first_minimum roster_with_tie [1; 0] [0; 1; 0]).
  - discriminate.
  - vm_compute. reflexivity.
  - apply Float64Facts.non_nan_strict_weak_order. repeat constructor.
  - repeat constructor.
Defined.

(** The tie between the first and the third entry goes to the first. *)
Example recognize_face_tie :
  recognize_face roster_with_tie [1; 0] = Ok ("A001"%string, 0, "Ana"%string).
Proof. vm_compute. reflexivity. Qed.

(** A distance equal to the threshold is accepted, a larger one is not. *)
Example recognize_face_orthogonal :
  recognize_face [ {| id := "A001"; name := "Ana"; embedding := [1; 0] |} ]
                 [0; 1]
  = Ok ("UNKNOWN"%string, 1, "UNKNOWN"%string).
Proof. vm_compute. reflexivity. Qed.

(** Why the scan's theorem asks for ordered distances: a [NaN] distance
    is below nothing and above nothing, so an entry with one is never the
    best match, and a roster of such entries leaves the initial state. *)
Example recognize_face_nan_distance :
  recognize_face [ {| id := "A001"; name := "Ana"; embedding := [1; 0] |} ]
                 [nan; 0]
  = Ok ("UNKNOWN"%string, infinity, "UNKNOWN"%string).
Proof. vm_compute. reflexivity. Qed.

(** The sentinel of the empty roster is the finite 999.0, which lies above
    the threshold like every rejected distance; it is not the
    [float('inf')] the scan starts from. *)
Example empty_roster_sentinel :
  recognize_face [] [1; 0] = Ok ("UNKNOWN"%string, 999, "UNKNOWN"%string) /\
  fgt (f999 : float) SIMILARITY_THRESHOLD = true /\
  feq (f999 : float) finf = false.
Proof. vm_compute. auto. Qed.

(** A zero vector is at distance 1.0 from anything of its dimension, even
    where dividing by zero raises. *)
Example zero_embedding_distance :
  @calculate_cosine_distance float Float64.strict_Numeric [0; 0] [0; 0] = Ok 1.
Proof. vm_compute. reflexivity. Qed.

Local Close Scope float_scope.

(* ================================================================== *)
(** * AttendanceLedger: the day's duplicate check and the append *)
(* ================================================================== *)

Lemma select_absen_raises (db : database) (magang_id log_type' today : string)
  (e : exn) :
  select_absen db magang_id log_type' today = Raise e ->
  absensi db = None /\ e = Sqlite3Error.
Proof.
  unfold select_absen, table.
  destruct (absensi db) as [rows |]; simpl; intros H.
  - discriminate H.
  - injection H as <-. auto.
Qed.

(** C9.  When the query of [check_already_absen] raises, the function
    returns [False]: the failure of the store is reported as "not logged
    today", not as an error. *)
Theorem check_already_absen_fails_open (db : database) (now : datetime)
  (magang_id : string) (log_type' : option string) (e : exn) :
  select_absen db magang_id (default_arg "MASUK" log_type') (today_start now)
  = Raise e ->
  check_already_absen db now magang_id log_type' = Ok false.
Proof.
  intros H. unfold check_already_absen.
  destruct (select_absen_raises _ _ _ _ _ H) as [_ ->].
  rewrite H. reflexivity.
Qed.

Lemma check_already_absen_fails_open_witness :
  select_absen empty_database "A001" (default_arg "MASUK" None)
    (today_start noon_2025_01_15) = Raise Sqlite3Error /\
  check_already_absen empty_database noon_2025_01_15 "A001" None = Ok false.
Proof.
  split; [reflexivity |].
  apply (check_already_absen_fails_open empty_database noon_2025_01_15 "A001"
           None Sqlite3Error).
  reflexivity.
Defined.

(** What [update_absensi_log] does when it is given the time: one event is
    appended, with the identity's id and name, that time and, by default,
    the type ['MASUK']. *)
Lemma update_absensi_log_appends (db : database) (magang_id magang_name : string)
  (log_time : string) (rows : list absensi_row) :
  absensi db = Some rows ->
  exists db',
    update_absensi_log db magang_id magang_name (Some log_time) None = Ok db' /\
    magang db' = magang db /\
    ledger db' =
    ledger db ++ [{| log_id := next_rowid rows; log_magang_id := magang_id;
                     log_nama := magang_name; log_timestamp := log_time;
                     log_type := "MASUK" |}].
Proof.
  intros H. unfold update_absensi_log, insert_absensi, ledger. simpl.
  rewrite H. simpl. eexists. split; [reflexivity |]. simpl. auto.
Qed.

(** A call that leaves [log_time] out raises before anything is written. *)
Lemma update_absensi_log_without_time (db : database)
  (magang_id magang_name : string) (log_type' : option string) :
  update_absensi_log db magang_id magang_name None log_type' = Raise TypeError.
Proof. reflexivity. Qed.

Section ServerProofs.

Context {F : Type} {Num : Numeric F}.

(** C1.  What the endpoint does with a recognized face: the call
    [db.update_absensi_log(DATABASE_NAME, id_magang, nama)] of line 165
    does not pass the required [log_time], so it raises [TypeError]; the
    handler of line 193 turns that into an HTTP 500, and the database,
    hence the ledger, is what it was.  No attendance event is appended and
    the outcome is not the successful one. *)
Theorem absensi_endpoint_recognized_raises (db : database)
  (MAGANG_EMBEDDINGS : list (magang_entry F)) (live_embedding : ndarray F)
  (id_magang : string) (distance : F) (nama : string) :
  recognize_face MAGANG_EMBEDDINGS live_embedding
  = Ok (id_magang, distance, nama) ->
  id_magang <> "UNKNOWN" ->
  absensi_endpoint db MAGANG_EMBEDDINGS (Ok (Some live_embedding))
  = (db, HTTPException 500 TypeError).
Proof.
  intros Hrec Hid. unfold absensi_endpoint. simpl. rewrite Hrec. simpl.
  destruct (String.eqb id_magang "UNKNOWN") eqn:E.
  - apply String.eqb_eq in E. contradiction.
  - reflexivity.
Qed.

(** A face that is not recognized is answered with 403 and writes
    nothing. *)
Lemma absensi_endpoint_unknown (db : database)
  (MAGANG_EMBEDDINGS : list (magang_entry F)) (live_embedding : ndarray F)
  (distance : F) (nama : string) :
  recognize_face MAGANG_EMBEDDINGS live_embedding
  = Ok ("UNKNOWN", distance, nama) ->
  absensi_endpoint db MAGANG_EMBEDDINGS (Ok (Some live_embedding))
  = (db, JSONResponse 403 "FAIL" None (Some distance)).
Proof.
  intros Hrec. unfold absensi_endpoint. simpl. rewrite Hrec. reflexivity.
Qed.

End ServerProofs.

Lemma absensi_endpoint_recognized_raises_witness :
  recognize_face roster_with_tie [1; 0]%float
  = Ok ("A001", 0%float, "Ana") /\
  "A001" <> "UNKNOWN" /\
  absensi_endpoint database_with_tables roster_with_tie
    (Ok (Some [1; 0]%float))
  = (database_with_tables, @HTTPException float 500 TypeError) /\
  ledger database_with_tables = [].
Proof.
  split; [vm_compute; reflexivity |].
  split; [discriminate |].
  split; [| reflexivity].
  apply (absensi_endpoint_recognized_raises database_with_tables
           roster_with_tie [1; 0]%float "A001" 0%float "Ana").
  - vm_compute. reflexivity.
  - discriminate.
Defined.

(* ================================================================== *)
(** * EmbeddingStore: one record per id *)
(* ================================================================== *)

Lemma insert_or_replace_ids (new : magang_row) (rows : list magang_row) :
  map row_id (insert_or_replace new rows) =
  filter (fun i => negb (String.eqb i (row_id new))) (map row_id rows)
  ++ [row_id new].
Proof.
  unfold insert_or_replace. rewrite map_app. simpl. f_equal.
  induction rows as [| r rows IH]; simpl; [reflexivity |].
  destruct (String.eqb (row_id r) (row_id new)); simpl; rewrite IH; reflexivity.
Qed.

Lemma insert_or_replace_NoDup (new : magang_row) (rows : list magang_row) :
  NoDup (map row_id rows) -> NoDup (map row_id (insert_or_replace new rows)).
Proof.
  intros H. rewrite insert_or_replace_ids. apply NoDup_app.
  - apply NoDup_filter. exact H.
  - constructor; [intros [] | constructor].
  - intros i Hi [<- | []]. apply filter_In in Hi. destruct Hi as [_ Hi].
    rewrite String.eqb_refl in Hi. discriminate Hi.
Qed.

Lemma find_insert_or_replace (new : magang_row) (rows : list magang_row) :
  find (fun r => String.eqb (row_id r) (row_id new)) (insert_or_replace new rows)
  = Some new.
Proof.
  unfold insert_or_replace.
  induction rows as [| r rows IH]; simpl.
  - rewrite String.eqb_refl. reflexivity.
  - destruct (String.eqb (row_id r) (row_id new)) eqn:E; simpl.
    + exact IH.
    + rewrite E. exact IH.
Qed.

Lemma find_insert_or_replace_other (new : magang_row) (rows : list magang_row)
  (i : string) :
  i <> row_id new ->
  find (fun r => String.eqb (row_id r) i) (insert_or_replace new rows)
  = find (fun r => String.eqb (row_id r) i) rows.
Proof.
  intros Hne. unfold insert_or_replace.
  induction rows as [| r rows IH]; simpl.
  - destruct (String.eqb (row_id new) i) eqn:E; [| reflexivity].
    apply String.eqb_eq in E. congruence.
  - destruct (String.eqb (row_id r) (row_id new)) eqn:E; simpl.
    + apply String.eqb_eq in E.
      destruct (String.eqb (row_id r) i) eqn:E'; [| exact IH].
      apply String.eqb_eq in E'. congruence.
    + destruct (String.eqb (row_id r) i); [reflexivity | exact IH].
Qed.

Lemma count_insert_or_replace (new : magang_row) (rows : list magang_row) :
  List.length (filter (fun r => String.eqb (row_id r) (row_id new))
                      (insert_or_replace new rows)) = 1.
Proof.
  unfold insert_or_replace. rewrite filter_app. simpl.
  rewrite String.eqb_refl. rewrite length_app. simpl.
  replace (filter _ (filter _ rows)) with (@nil magang_row); [reflexivity |].
  induction rows as [| r rows IH]; simpl; [reflexivity |].
  destruct (String.eqb (row_id r) (row_id new)) eqn:E; simpl.
  - exact IH.
  - rewrite E. exact IH.
Qed.

Section StoreProofs.

Context {F : Type} {Num : Numeric F}.

Lemma save_new_magang_records (db : database) (now : datetime)
  (magang_id magang_name : string) (embedding_array : ndarray F)
  (rows : list magang_row) :
  magang db = Some rows ->
  identity_records
    (fst (save_new_magang db now magang_id magang_name embedding_array))
  = insert_or_replace
      {| row_id := magang_id; row_nama := magang_name;
         row_master_embedding := tobytes_float32 embedding_array;
         row_last_updated := strftime now |} rows.
Proof.
  intros H. unfold save_new_magang, identity_records. rewrite H. reflexivity.
Qed.

Lemma save_new_magang_without_table (db : database) (now : datetime)
  (magang_id magang_name : string) (embedding_array : ndarray F) :
  magang db = None ->
  fst (save_new_magang db now magang_id magang_name embedding_array) = db /\
  fst (snd (save_new_magang db now magang_id magang_name embedding_array))
  = false.
Proof.
  intros H. unfold save_new_magang. rewrite H. auto.
Qed.

Lemma update_absensi_log_records (db db' : database)
  (magang_id magang_name : string) (log_time log_type' : option string) :
  update_absensi_log db magang_id magang_name log_time log_type' = Ok db' ->
  identity_records db' = identity_records db.
Proof.
  unfold update_absensi_log, insert_absensi, identity_records, table.
  destruct log_time as [t |]; simpl; [| discriminate].
  destruct (absensi db) as [rows |]; simpl; intros H; injection H as <-;
    reflexivity.
Qed.

Lemma save_new_magang_unique_ids (db : database) (now : datetime)
  (magang_id magang_name : string) (embedding_array : ndarray F) :
  unique_ids db ->
  unique_ids
    (fst (save_new_magang db now magang_id magang_name embedding_array)).
Proof.
  unfold unique_ids. intros Hinv.
  destruct (magang db) as [rows |] eqn:E.
  - rewrite (save_new_magang_records db now magang_id magang_name
               embedding_array rows E).
    apply insert_or_replace_NoDup.
    unfold identity_records in Hinv. rewrite E in Hinv. exact Hinv.
  - destruct (save_new_magang_without_table db now magang_id magang_name
                embedding_array E) as [-> _]. exact Hinv.
Qed.

Lemma clear_magang_table_unique_ids (db : database) :
  unique_ids (clear_magang_table db).
Proof.
  unfold unique_ids, clear_magang_table, identity_records.
  destruct (magang db) eqn:E; [constructor | rewrite E; constructor].
Qed.

(** C8.  Every operation of the store keeps "at most one identity record
    per id"; and a [save_new_magang] that reaches the table leaves, under
    its id, exactly one record, the new one with its name, embedding BLOB
    and [last_updated], all other ids keeping the record they had. *)
Theorem store_operations_keep_unique_ids (db : database) (op : store_op F) :
  unique_ids db ->
  unique_ids (run_op db op) /\
  forall now magang_id magang_name embedding_array,
    op = OpSaveNewMagang now magang_id magang_name embedding_array ->
    magang db <> None ->
    find_magang magang_id (run_op db op)
    = Some {| row_id := magang_id; row_nama := magang_name;
              row_master_embedding := tobytes_float32 embedding_array;
              row_last_updated := strftime now |} /\
    count_magang magang_id (run_op db op) = 1 /\
    forall other, other <> magang_id ->
      find_magang other (run_op db op) = find_magang other db.
Proof.
  intros Hinv. split.
  - unfold unique_ids in *. destruct op; simpl.
    + unfold create_initial_tables, identity_records in *. simpl.
      destruct (magang db); [exact Hinv | constructor].
    + apply clear_magang_table_unique_ids.
    + apply save_new_magang_unique_ids. exact Hinv.
    + exact Hinv.
    + exact Hinv.
    + destruct (update_absensi_log db magang_id magang_name log_time log_type')
        as [db' |] eqn:E; [| exact Hinv].
      rewrite (update_absensi_log_records _ _ _ _ _ _ E). exact Hinv.
    + unfold reset_absensi_log, identity_records in *.
      destruct (absensi db); exact Hinv.
  - intros now magang_id magang_name embedding_array -> Htable. simpl.
    destruct (magang db) as [rows |] eqn:E; [| congruence].
    unfold find_magang, count_magang.
    rewrite (save_new_magang_records db now magang_id magang_name
               embedding_array rows E).
    split; [| split].
    + apply (find_insert_or_replace
               {| row_id := magang_id; row_nama := magang_name;
                  row_master_embedding := tobytes_float32 embedding_array;
                  row_last_updated := strftime now |}).
    + apply (count_insert_or_replace
               {| row_id := magang_id; row_nama := magang_name;
                  row_master_embedding := tobytes_float32 embedding_array;
                  row_last_updated := strftime now |}).
    + intros other Hne. unfold identity_records. rewrite E.
      apply find_insert_or_replace_other. simpl. exact Hne.
Qed.

End StoreProofs.

(* ================================================================== *)
(** * The BLOB round trip *)
(* ================================================================== *)

Lemma to_N_byte_of_N (n : N) : Byte.to_N (byte_of_N n) = (n mod 256)%N.
Proof.
  unfold byte_of_N. destruct (Byte.of_N (n mod 256)) as [b |] eqn:E.
  - apply Byte.to_of_N. exact E.
  - apply Byte.of_N_None_iff in E.
    pose proof (N.mod_upper_bound n 256). lia.
Qed.

Lemma bytes_word_of_word_bytes (w : N) :
  (w < 2 ^ 32)%N ->
  bytes_word (byte_of_N w) (byte_of_N (w / 2 ^ 8)) (byte_of_N (w / 2 ^ 16))
             (byte_of_N (w / 2 ^ 24)) = w.
Proof.
  intros Hw. unfold bytes_word. rewrite !to_N_byte_of_N.
  change (2 ^ 32)%N with 4294967296%N in Hw.
  change (2 ^ 8)%N with 256%N. change (2 ^ 16)%N with 65536%N.
  change (2 ^ 24)%N with 16777216%N.
  pose proof (N.div_mod w 256). pose proof (N.mod_upper_bound w 256).
  pose proof (N.div_mod (w / 256) 256).
  pose proof (N.mod_upper_bound (w / 256) 256).
  pose proof (N.div_mod (w / 65536) 256).
  pose proof (N.mod_upper_bound (w / 65536) 256).
  assert (H16 : (w / 65536 = w / 256 / 256)%N)
    by (rewrite N.Div0.div_div; reflexivity).
  assert (H24 : (w / 16777216 = w / 65536 / 256)%N)
    by (rewrite N.Div0.div_div; reflexivity).
  assert (Hsmall : (w / 16777216 < 256)%N)
    by (apply N.Div0.div_lt_upper_bound; lia).
  rewrite (N.mod_small (w / 16777216) 256 Hsmall).
  lia.
Qed.

Lemma buffer_words_of_word_bytes (ws : list N) :
  Forall (fun w => (w < 2 ^ 32)%N) ws ->
  buffer_words (flat_map word_bytes ws) = Ok ws.
Proof.
  induction 1 as [| w ws Hw _ IH]; [reflexivity |].
  change (flat_map word_bytes (w :: ws))
    with (byte_of_N w :: byte_of_N (w / 2 ^ 8) :: byte_of_N (w / 2 ^ 16)
          :: byte_of_N (w / 2 ^ 24) :: flat_map word_bytes ws).
  cbn [buffer_words]. rewrite IH. cbn [bind].
  rewrite (bytes_word_of_word_bytes w Hw). reflexivity.
Qed.

Section BlobProofs.

Context {F : Type} {Num : Numeric F}.

Lemma tobytes_float32_words (embedding_array : ndarray F) :
  tobytes_float32 embedding_array
  = flat_map word_bytes (map f32_bits embedding_array).
Proof.
  unfold tobytes_float32.
  induction embedding_array as [| x l IH]; [reflexivity |].
  simpl. rewrite IH. reflexivity.
Qed.

Lemma np_frombuffer_of_tobytes (embedding_array : ndarray F) :
  Forall (fun x => (f32_bits x < 2 ^ 32)%N) embedding_array ->
  np_frombuffer_float32 (tobytes_float32 embedding_array)
  = Ok (map cast_float32 embedding_array).
Proof.
  intros H. unfold np_frombuffer_float32.
  rewrite tobytes_float32_words, buffer_words_of_word_bytes.
  - simpl. rewrite map_map. reflexivity.
  - apply Forall_map. exact H.
Qed.

Lemma load_row_id (row : magang_row) (m : magang_entry F) :
  load_row row = Ok m -> id m = row_id row.
Proof.
  unfold load_row. intros H. apply bind_Ok_inv in H.
  destruct H as [a [_ H]]. injection H as <-. reflexivity.
Qed.

Lemma load_rows_filter (i : string) (rows : list magang_row)
  (old : list (magang_entry F)) :
  sequence (map load_row rows) = Ok old ->
  sequence (map load_row
              (filter (fun r => negb (String.eqb (row_id r) i)) rows))
  = Ok (filter (fun m => negb (String.eqb (id m) i)) old).
Proof.
  revert old. induction rows as [| r rows IH]; intros old H.
  - injection H as <-. reflexivity.
  - change (map load_row (r :: rows)) with (load_row r :: map load_row rows) in H.
    apply sequence_cons_inv in H. destruct H as [m [old' [Hm [Hrest ->]]]].
    simpl. rewrite (load_row_id r m Hm).
    destruct (String.eqb (row_id r) i); simpl.
    + apply IH. exact Hrest.
    + rewrite Hm. simpl. rewrite (IH old' Hrest). reflexivity.
Qed.

(** C10.  [save_new_magang] followed by [load_all_magang_embeddings]:
    the roster is the former one without the saved id, followed by the
    saved identity, whose embedding is the input cast to binary32,
    element by element; hence the input itself when the cast changes none
    of its elements. *)
Theorem save_then_load_round_trip (db : database) (now : datetime)
  (magang_id magang_name : string) (embedding_array : ndarray F)
  (old : list (magang_entry F)) :
  magang db <> None ->
  load_all_magang_embeddings db = Ok old ->
  Forall (fun x => (f32_bits x < 2 ^ 32)%N) embedding_array ->
  load_all_magang_embeddings
    (fst (save_new_magang db now magang_id magang_name embedding_array))
  = Ok (filter (fun m => negb (String.eqb (id m) magang_id)) old
        ++ [{| id := magang_id; name := magang_name;
               embedding := map cast_float32 embedding_array |}]) /\
  (Forall (fun x => cast_float32 x = x) embedding_array ->
   load_all_magang_embeddings
     (fst (save_new_magang db now magang_id magang_name embedding_array))
   = Ok (filter (fun m => negb (String.eqb (id m) magang_id)) old
         ++ [{| id := magang_id; name := magang_name;
                embedding := embedding_array |}])).
Proof.
  intros Htable Hold Hbits.
  assert (Hload :
    load_all_magang_embeddings
      (fst (save_new_magang db now magang_id magang_name embedding_array))
    = Ok (filter (fun m => negb (String.eqb (id m) magang_id)) old
          ++ [{| id := magang_id; name := magang_name;
                 embedding := map cast_float32 embedding_array |}])).
  { unfold load_all_magang_embeddings, save_new_magang in *.
    destruct (magang db) as [rows |]; [| congruence].
    cbn [fst magang]. unfold insert_or_replace. rewrite map_app.
    apply sequence_app.
    - apply (load_rows_filter magang_id rows old Hold).
    - simpl. unfold load_row. simpl.
      rewrite (np_frombuffer_of_tobytes embedding_array Hbits). reflexivity. }
  split; [exact Hload |].
  intros Hcast. rewrite Hload. repeat f_equal.
  clear - Hcast.
  induction Hcast as [| x l Hx _ IH]; [reflexivity |].
  simpl. rewrite Hx, IH. reflexivity.
Qed.

End BlobProofs.

(* ================================================================== *)
(** * TrainingAggregator: the centroid *)
(* ================================================================== *)

Section TrainingProofs.

Context {F : Type} {Num : Numeric F}.
Variable image : Type.
Variable embed_batch : list image -> Exc (list (ndarray F)).
Variable clock : magang_folder image -> datetime.

Lemma vec_add_length (a b : ndarray F) :
  List.length b = List.length a -> List.length (vec_add a b) = List.length a.
Proof.
  intros H. unfold vec_add. rewrite length_map, length_combine. lia.
Qed.

Lemma vec_add_nth (a b : ndarray F) (j : nat) :
  List.length b = List.length a -> j < List.length a ->
  nth j (vec_add a b) fzero = fadd (nth j a fzero) (nth j b fzero).
Proof.
  revert b j. induction a as [| x a IH]; intros [| y b] j Hlen Hj;
    simpl in *; try lia.
  destruct j as [| j]; [reflexivity |].
  apply IH; lia.
Qed.

Lemma sum_rows_nth (rest : list (ndarray F)) (first : ndarray F) :
  Forall (fun e => List.length e = List.length first) rest ->
  List.length (fold_left vec_add rest first) = List.length first /\
  forall j, j < List.length first ->
    nth j (fold_left vec_add rest first) fzero
    = fold_left fadd (map (fun e => nth j e fzero) rest) (nth j first fzero).
Proof.
  revert first. induction rest as [| e rest IH]; intros first H.
  - simpl. auto.
  - inversion H as [| ? ? He Hrest]; subst. simpl.
    pose proof (vec_add_length first e He) as Hl.
    destruct (IH (vec_add first e)) as [IHlen IHnth].
    + rewrite Hl. exact Hrest.
    + split; [congruence |].
      intros j Hj. rewrite IHnth by lia.
      rewrite (vec_add_nth first e j He Hj). reflexivity.
Qed.

Lemma np_mean_axis0_coordinates (first : ndarray F)
  (rest : list (ndarray F)) :
  Forall (fun e => List.length e = List.length first) rest ->
  exists avg_embedding,
    np_mean_axis0 first rest = Ok avg_embedding /\
    List.length avg_embedding = List.length first /\
    forall j, j < List.length first ->
      nth j avg_embedding fzero = coordinate_mean (first :: rest) j.
Proof.
  intros H. unfold np_mean_axis0.
  assert (Hall : forallb (fun e => Nat.eqb (List.length e) (List.length first))
                         rest = true).
  { apply forallb_forall. intros e He. apply Nat.eqb_eq.
    rewrite Forall_forall in H. apply H. exact He. }
  rewrite Hall. eexists. split; [reflexivity |].
  destruct (sum_rows_nth rest first H) as [Hlen Hnth].
  split; [rewrite length_map; exact Hlen |].
  intros j Hj. unfold coordinate_mean. simpl.
  rewrite <- Hnth by exact Hj.
  rewrite (nth_indep _ fzero (fdiv_count fzero (S (List.length rest))))
    by (rewrite length_map; lia).
  apply (map_nth (fun s => fdiv_count s (S (List.length rest)))).
Qed.

(** C5.  For embeddings of one dimension, [first :: rest], the vector
    handed to [save_new_magang] has that dimension and its [j]-th
    coordinate is the mean of the [j]-th coordinates of the inputs; the
    count reported is their number; and where the table exists the record
    stored under the id carries this vector as its BLOB. *)
Theorem aggregate_and_store_mean (db : database) (now : datetime)
  (magang_id magang_name : string) (first : ndarray F)
  (rest : list (ndarray F)) :
  Forall (fun e => List.length e = List.length first) rest ->
  exists avg_embedding,
    List.length avg_embedding = List.length first /\
    (forall j, j < List.length first ->
       nth j avg_embedding fzero = coordinate_mean (first :: rest) j) /\
    aggregate_and_store db now magang_id magang_name (first :: rest)
    = Ok (fst (save_new_magang db now magang_id magang_name avg_embedding),
          List.length (first :: rest)) /\
    (magang db <> None ->
     find_magang magang_id
       (fst (save_new_magang db now magang_id magang_name avg_embedding))
     = Some {| row_id := magang_id; row_nama := magang_name;
               row_master_embedding := tobytes_float32 avg_embedding;
               row_last_updated := strftime now |}).
Proof.
  intros H.
  destruct (np_mean_axis0_coordinates first rest H) as [avg [Hmean [Hlen Hnth]]].
  exists avg. split; [exact Hlen |]. split; [exact Hnth |]. split.
  - unfold aggregate_and_store. rewrite Hmean. simpl.
    destruct (save_new_magang db now magang_id magang_name avg). reflexivity.
  - intros Htable. destruct (magang db) as [rows |] eqn:E; [| congruence].
    unfold find_magang.
    rewrite (save_new_magang_records db now magang_id magang_name avg rows E).
    apply (find_insert_or_replace
             {| row_id := magang_id; row_nama := magang_name;
                row_master_embedding := tobytes_float32 avg;
                row_last_updated := strftime now |}).
Qed.

(** C6.  With no embedding [aggregate_and_store] returns the database it
    was given and the count 0; and a folder whose images yield no
    embedding leaves the state of the run, database and total, as it
    was. *)
Theorem aggregate_and_store_empty (db : database) (now : datetime)
  (magang_id magang_name : string) (total : nat)
  (magang : magang_folder image) :
  aggregate_and_store (F := F) db now magang_id magang_name [] = Ok (db, 0) /\
  (collect_embeddings image embed_batch (folder_images magang) = [] ->
   process_magang image embed_batch clock (db, total) magang
   = Ok (db, total)).
Proof.
  split; [reflexivity |].
  intros H. unfold process_magang.
  destruct (folder_images magang) as [| f fs]; [reflexivity |].
  rewrite H. simpl. rewrite Nat.add_0_r. reflexivity.
Qed.

(** An enrollment run keeps "at most one identity record per id", also
    when two folders share a name. *)
Lemma aggregate_and_store_unique_ids (db db' : database) (now : datetime)
  (magang_id magang_name : string) (embeddings : list (ndarray F)) (n : nat) :
  unique_ids db ->
  aggregate_and_store db now magang_id magang_name embeddings = Ok (db', n) ->
  unique_ids db'.
Proof.
  intros Hinv. unfold aggregate_and_store.
  destruct embeddings as [| first rest].
  - intros H. injection H as <- _. exact Hinv.
  - destruct (np_mean_axis0 first rest) as [avg | e]; [| discriminate].
    cbn [bind].
    pose proof (save_new_magang_unique_ids db now magang_id magang_name avg
                  Hinv) as Hsave.
    destruct (save_new_magang db now magang_id magang_name avg) as [db1 r].
    intros H. injection H as <- _. exact Hsave.
Qed.

Lemma process_and_save_embeddings_unique_ids (db db' : database)
  (dataset : option (list (magang_folder image))) (n : nat) :
  unique_ids db ->
  process_and_save_embeddings image embed_batch clock db dataset = Ok (db', n) ->
  unique_ids db'.
Proof.
  intros Hinv. unfold process_and_save_embeddings.
  destruct dataset as [[| magang magang_list] |];
    try (intros H; injection H as <- _; exact Hinv).
  pose proof (clear_magang_table_unique_ids db) as Hclear.
  generalize (clear_magang_table db) 0 Hclear.
  generalize (magang :: magang_list). clear.
  intros l. induction l as [| m l IH]; intros db0 n0 H0 Hrun.
  - injection Hrun as <- _. exact H0.
  - cbn [for_each] in Hrun. apply bind_Ok_inv in Hrun.
    destruct Hrun as [[db1 n1] [Hstep Hrun]].
    apply (IH db1 n1); [| exact Hrun].
    unfold process_magang in Hstep.
    destruct (folder_images m) as [| f fs].
    + injection Hstep as <- _. exact H0.
    + apply bind_Ok_inv in Hstep. destruct Hstep as [[db2 k] [Hagg Hstep]].
      injection Hstep as <- _.
      exact (aggregate_and_store_unique_ids db0 db2 _ _ _ _ k H0 Hagg).
Qed.

End TrainingProofs.

(* ================================================================== *)
(** * Text order of timestamps is their chronological order *)
(* ================================================================== *)

Lemma ascii_compare_digit (a b : N) :
  (a < 10)%N -> (b < 10)%N -> Ascii.compare (digit a) (digit b) = N.compare a b.
Proof.
  intros Ha Hb. unfold Ascii.compare, digit.
  rewrite !N_ascii_embedding by lia.
  destruct (N.compare_spec a b) as [H | H | H];
    [apply N.compare_eq_iff | apply N.compare_lt_iff | apply N.compare_gt_iff];
    lia.
Qed.

Lemma compare_pad2 (n m : N) (s1 s2 : string) :
  (n < 100)%N -> (m < 100)%N ->
  String.compare (pad2 n ++ s1) (pad2 m ++ s2)
  = match N.compare n m with
    | Eq => String.compare s1 s2
    | c => c
    end.
Proof.
  intros Hn Hm. unfold pad2. cbn [append String.compare].
  rewrite !ascii_compare_digit by digit_arith.
  destruct (N.compare_spec (n / 10 mod 10) (m / 10 mod 10)) as [H1 | H1 | H1];
    destruct (N.compare_spec (n mod 10) (m mod 10)) as [H0 | H0 | H0];
    destruct (N.compare_spec n m) as [H | H | H];
    try reflexivity; exfalso; digit_arith.
Qed.

Lemma thousands_digit (n : N) : (n / 100 / 10 mod 10 = n / 1000 mod 10)%N.
Proof. digit_arith. Qed.

Lemma tens_digit (n : N) : (n mod 100 / 10 mod 10 = n / 10 mod 10)%N.
Proof. digit_arith. Qed.

Lemma units_digit (n : N) : ((n mod 100) mod 10 = n mod 10)%N.
Proof. digit_arith. Qed.

Lemma pad4_split (n : N) :
  pad4 n = (pad2 (n / 100) ++ pad2 (n mod 100))%string.
Proof.
  unfold pad4, pad2. cbn [append].
  rewrite thousands_digit, tens_digit, units_digit. reflexivity.
Qed.

Lemma compare_pad4 (n m : N) (s1 s2 : string) :
  (n < 10000)%N -> (m < 10000)%N ->
  String.compare (pad4 n ++ s1) (pad4 m ++ s2)
  = match N.compare n m with
    | Eq => String.compare s1 s2
    | c => c
    end.
Proof.
  intros Hn Hm. rewrite !pad4_split.
  change ((pad2 (n / 100) ++ pad2 (n mod 100)) ++ s1)%string
    with (pad2 (n / 100) ++ (pad2 (n mod 100) ++ s1))%string.
  change ((pad2 (m / 100) ++ pad2 (m mod 100)) ++ s2)%string
    with (pad2 (m / 100) ++ (pad2 (m mod 100) ++ s2))%string.
  rewrite compare_pad2 by digit_arith.
  rewrite compare_pad2 by digit_arith.
  destruct (N.compare_spec (n / 100) (m / 100)) as [H1 | H1 | H1];
    destruct (N.compare_spec (n mod 100) (m mod 100)) as [H0 | H0 | H0];
    destruct (N.compare_spec n m) as [H | H | H];
    try reflexivity; exfalso; digit_arith.
Qed.

Lemma compare_separator (c : ascii) (s1 s2 : string) :
  String.compare (String c s1) (String c s2) = String.compare s1 s2.
Proof.
  cbn [String.compare]. unfold Ascii.compare. rewrite N.compare_refl.
  reflexivity.
Qed.

Lemma strftime_fields (t : datetime) :
  strftime t
  = (pad4 (year t) ++ String "-" (pad2 (month t) ++ String "-" (pad2 (day t)
     ++ String " " (pad2 (hour t) ++ String ":" (pad2 (minute t)
     ++ String ":" (pad2 (second t) ++ EmptyString))))))%string.
Proof. reflexivity. Qed.

Lemma today_start_is_midnight (t : datetime) :
  today_start t = strftime (start_of_day t).
Proof. reflexivity. Qed.

Lemma valid_start_of_day (t : datetime) :
  valid_datetime t -> valid_datetime (start_of_day t).
Proof. unfold valid_datetime. simpl. lia. Qed.

(** The text forms of two valid datetimes compare, byte by byte, as the
    datetimes do in time. *)
Lemma strftime_compare (t1 t2 : datetime) :
  valid_datetime t1 -> valid_datetime t2 ->
  String.compare (strftime t1) (strftime t2) = datetime_compare t1 t2.
Proof.
  unfold valid_datetime. intros H1 H2. rewrite !strftime_fields.
  rewrite compare_pad4 by lia. rewrite compare_separator.
  rewrite compare_pad2 by lia. rewrite compare_separator.
  rewrite compare_pad2 by lia. rewrite compare_separator.
  rewrite compare_pad2 by lia. rewrite compare_separator.
  rewrite compare_pad2 by lia. rewrite compare_separator.
  rewrite compare_pad2 by lia.
  reflexivity.
Qed.

Lemma leb_today_start (now t : datetime) :
  valid_datetime now -> valid_datetime t ->
  String.leb (today_start now) (strftime t) = true
  <-> at_or_after_start_of_day now t.
Proof.
  intros Hnow Ht. unfold String.leb, at_or_after_start_of_day.
  rewrite today_start_is_midnight.
  rewrite (strftime_compare _ _ (valid_start_of_day now Hnow) Ht).
  destruct (datetime_compare (start_of_day now) t); split; congruence.
Qed.

Lemma fetchone_of_select {A : Type} (p : A -> bool) (rows : list A) :
  fetchone_is_not_None (firstn 1 (filter p rows)) = existsb p rows.
Proof.
  induction rows as [| r rows IH]; [reflexivity |].
  simpl. destruct (p r); [reflexivity | exact IH].
Qed.

Lemma check_already_absen_value (db : database) (now : datetime)
  (magang_id : string) (log_type' : option string) :
  check_already_absen db now magang_id log_type'
  = Ok (existsb (where_absen magang_id (default_arg "MASUK" log_type')
                             (today_start now))
                (ledger db)).
Proof.
  unfold check_already_absen, select_absen, ledger, table.
  destruct (absensi db) as [rows |]; [| reflexivity].
  cbn [bind except_sqlite3]. rewrite fetchone_of_select. reflexivity.
Qed.

(** C7.  On a ledger whose timestamps were written by
    [strftime('%Y-%m-%d %H:%M:%S')]: [check_already_absen] returns [True]
    exactly when the ledger holds an event with the given id and type
    whose time is at or after midnight of the current day; and it returns
    in every case. *)
Theorem check_already_absen_iff (db : database) (now : datetime)
  (magang_id : string) (log_type' : option string) :
  valid_datetime now ->
  (forall r, In r (ledger db) ->
     exists t, valid_datetime t /\ log_timestamp r = strftime t) ->
  (check_already_absen db now magang_id log_type' = Ok true <->
   exists r t,
     In r (ledger db) /\
     log_magang_id r = magang_id /\
     log_type r = default_arg "MASUK" log_type' /\
     log_timestamp r = strftime t /\ valid_datetime t /\
     at_or_after_start_of_day now t) /\
  (exists b, check_already_absen db now magang_id log_type' = Ok b).
Proof.
  intros Hnow Hledger. rewrite check_already_absen_value.
  split; [| eauto]. split.
  - intros H. injection H as H. apply existsb_exists in H.
    destruct H as [r [Hr Hw]]. unfold where_absen in Hw.
    apply andb_prop in Hw. destruct Hw as [Hw Hts].
    apply andb_prop in Hw. destruct Hw as [Hid Hty].
    destruct (Hledger r Hr) as [t [Ht Hrt]].
    exists r, t. rewrite Hrt in Hts.
    apply String.eqb_eq in Hid. apply String.eqb_eq in Hty.
    apply (leb_today_start now t Hnow Ht) in Hts. auto 10.
  - intros [r [t [Hr [Hid [Hty [Hrt [Ht Hafter]]]]]]]. f_equal.
    apply existsb_exists. exists r. split; [exact Hr |].
    unfold where_absen. rewrite Hid, Hty, Hrt, !String.eqb_refl. simpl.
    apply (leb_today_start now t Hnow Ht). exact Hafter.
Qed.

(* ================================================================== *)
(** * The theorems at concrete inputs *)
(* ================================================================== *)

Lemma written_by_strftime :
  forall r, In r (ledger database_with_ledger) ->
    exists t, valid_datetime t /\ log_timestamp r = strftime t.
Proof.
  intros r [<- | [<- | []]].
  - exists last_second_2025_01_14. split; [valid_by_computation | reflexivity].
  - exists morning_2025_01_15. split; [valid_by_computation | reflexivity].
Qed.

Lemma check_already_absen_iff_witness :
  check_already_absen database_with_ledger noon_2025_01_15 "A001" None
  = Ok true.
Proof.
  apply (check_already_absen_iff database_with_ledger noon_2025_01_15 "A001"
           None).
  - valid_by_computation.
  - exact written_by_strftime.
  - eexists _, morning_2025_01_15.
    split; [right; left; reflexivity |].
    repeat split; try valid_by_computation.
    unfold at_or_after_start_of_day. vm_compute. discriminate.
Defined.

(** Yesterday's entry does not count. *)
Example check_already_absen_yesterday :
  check_already_absen database_with_ledger noon_2025_01_15 "A002" None
  = Ok false.
Proof. vm_compute. reflexivity. Qed.

(** An entry made at midnight itself counts. *)
Example check_already_absen_midnight :
  check_already_absen
    {| magang := None;
       absensi :=
         Some [ {| log_id := 1; log_magang_id := "A001"; log_nama := "Ana";
                   log_timestamp := "2025-01-15 00:00:00";
                   log_type := "MASUK" |} ] |}
    noon_2025_01_15 "A001" (Some "MASUK")
  = Ok true.
Proof. vm_compute. reflexivity. Qed.

Lemma store_operations_keep_unique_ids_witness :
  unique_ids database_with_ana /\
  unique_ids
    (run_op database_with_ana
       (OpSaveNewMagang noon_2025_01_15 "A001" "Ana Baru" [0; 1]%float)) /\
  find_magang "A001"
    (run_op database_with_ana
       (OpSaveNewMagang noon_2025_01_15 "A001" "Ana Baru" [0; 1]%float))
  = Some {| row_id := "A001"; row_nama := "Ana Baru";
            row_master_embedding := tobytes_float32 [0; 1]%float;
            row_last_updated := strftime noon_2025_01_15 |} /\
  count_magang "A001"
    (run_op database_with_ana
       (OpSaveNewMagang noon_2025_01_15 "A001" "Ana Baru" [0; 1]%float))
  = 1.
Proof.
  assert (H : unique_ids database_with_ana).
  { unfold unique_ids. vm_compute. repeat constructor. intros []. }
  split; [exact H |].
  destruct (store_operations_keep_unique_ids database_with_ana
              (OpSaveNewMagang noon_2025_01_15 "A001" "Ana Baru" [0; 1]%float)
              H) as [Hinv Hsave].
  split; [exact Hinv |].
  destruct (Hsave noon_2025_01_15 "A001" "Ana Baru" [0; 1]%float eq_refl)
    as [Hfind [Hcount _]].
  - vm_compute. discriminate.
  - auto.
Defined.

Lemma save_then_load_round_trip_witness :
  load_all_magang_embeddings
    (fst (save_new_magang database_with_ana noon_2025_01_15 "A002" "Budi"
            [0.1; 1; -2]%float))
  = Ok [ {| id := "A001"; name := "Ana"; embedding := [1; 0]%float |};
         {| id := "A002"; name := "Budi";
            embedding := map cast_float32 [0.1; 1; -2]%float |} ].
Proof.
  apply (save_then_load_round_trip database_with_ana noon_2025_01_15
           "A002" "Budi" [0.1; 1; -2]%float
           [ {| id := "A001"; name := "Ana"; embedding := [1; 0]%float |} ]).
  - vm_compute. discriminate.
  - vm_compute. reflexivity.
  - apply Forall_forall. intros x _. apply Float64Facts.bits32_range.
Defined.

(** 0.1 is not a binary32 value: what comes back is its rounding. *)
Example round_trip_rounds :
  map cast_float32 [0.1; 1; -2]%float
  = [0x1.99999ap-4; 1; -2]%float.
Proof. vm_compute. reflexivity. Qed.

Lemma aggregate_and_store_mean_witness :
  exists avg_embedding,
    List.length avg_embedding = 2 /\
    (forall j, j < 2 ->
       nth j avg_embedding fzero
       = coordinate_mean [[1; 2]; [3; 4]; [5; 9]]%float j) /\
    aggregate_and_store database_with_tables noon_2025_01_15 "A001" "Ana"
      [[1; 2]; [3; 4]; [5; 9]]%float
    = Ok (fst (save_new_magang database_with_tables noon_2025_01_15
                 "A001" "Ana" avg_embedding), 3) /\
    (magang database_with_tables <> None ->
     find_magang "A001"
       (fst (save_new_magang database_with_tables noon_2025_01_15
               "A001" "Ana" avg_embedding))
     = Some {| row_id := "A001"; row_nama := "Ana";
               row_master_embedding := tobytes_float32 avg_embedding;
               row_last_updated := strftime noon_2025_01_15 |}).
Proof.
  apply (aggregate_and_store_mean database_with_tables noon_2025_01_15
           "A001" "Ana" [1; 2]%float [[3; 4]; [5; 9]]%float).
  repeat constructor.
Defined.

(** The centroid of three embeddings. *)
Example aggregate_and_store_centroid :
  np_mean_axis0 [1; 2]%float [[3; 4]; [5; 9]]%float = Ok [3; 5]%float.
Proof. vm_compute. reflexivity. Qed.

(* ================================================================== *)
(** * More of the RecognitionEngine *)
(* ================================================================== *)

Section RecognitionMore.

Context {F : Type} {Num : Numeric F}.

Lemma scan_state_origin (live_embedding : ndarray F)
  (ms : list (magang_entry F)) (st st' : scan_state F) :
  for_each (scan_step live_embedding) ms st = Ok st' ->
  st' = st \/
  exists magang d,
    In magang ms /\ st' = (d, id magang, name magang) /\
    calculate_cosine_distance live_embedding (flatten (embedding magang))
    = Ok d.
Proof.
  revert st. induction ms as [| magang ms IH]; intros st H.
  - injection H as <-. left. reflexivity.
  - cbn [for_each] in H. apply bind_Ok_inv in H.
    destruct H as [st1 [Hstep Hloop]].
    destruct (IH st1 Hloop) as [-> | [m' [d [Hin [-> Hd]]]]].
    + destruct st as [[m bid] bname]. unfold scan_step in Hstep.
      apply bind_Ok_inv in Hstep. destruct Hstep as [d [Hd Hstep]].
      destruct (flt d m); injection Hstep as <-.
      * right. exists magang, d. split; [left; reflexivity | auto].
      * left. reflexivity.
    + right. exists m', d. split; [right; exact Hin | auto].
Qed.

(** X1.  Whatever the numbers are (NaN included), an answer of
    [recognize_face] is either the pair of ["UNKNOWN"]s or the id and the
    name of one and the same roster entry, with that entry's distance to
    the live embedding, and this distance is not above the threshold. *)
Theorem recognize_face_answer_sound
  (MAGANG_EMBEDDINGS : list (magang_entry F)) (live_embedding : ndarray F)
  (best_match_id : string) (min_distance : F) (best_match_name : string) :
  recognize_face MAGANG_EMBEDDINGS live_embedding
  = Ok (best_match_id, min_distance, best_match_name) ->
  (best_match_id = "UNKNOWN" /\ best_match_name = "UNKNOWN") \/
  (exists magang,
     In magang MAGANG_EMBEDDINGS /\
     best_match_id = id magang /\ best_match_name = name magang /\
     calculate_cosine_distance live_embedding (flatten (embedding magang))
     = Ok min_distance /\
     fgt min_distance SIMILARITY_THRESHOLD = false).
Proof.
  unfold recognize_face.
  destruct MAGANG_EMBEDDINGS as [| m0 ms].
  - intros H. injection H as <- _ <-. left. auto.
  - intros H. apply bind_Ok_inv in H.
    destruct H as [[[m bid] bname] [Hloop H]].
    destruct (fgt m SIMILARITY_THRESHOLD) eqn:Hgt.
    + injection H as <- _ <-. left. auto.
    + injection H as <- <- <-.
      destruct (scan_state_origin _ _ _ _ Hloop) as [E | [mg [d [Hin [E Hd]]]]].
      * injection E as _ -> ->. left. auto.
      * injection E as -> -> ->. right. exists mg. auto.
Qed.

Lemma cosine_distance_raises_iff (emb1 emb2 : ndarray F) (e : exn) :
  (forall a b, exists q, fdiv a b = Ok q) ->
  (calculate_cosine_distance emb1 emb2 = Raise e <->
   e = ValueError /\ List.length emb1 <> List.length emb2).
Proof.
  intros Hdiv. unfold calculate_cosine_distance, flatten, np_dot.
  destruct (Nat.eqb (List.length emb1) (List.length emb2)) eqn:E; cbn [bind].
  - apply Nat.eqb_eq in E.
    destruct (feq (np_linalg_norm emb1) fzero || feq (np_linalg_norm emb2) fzero).
    + split; [discriminate | intros [_ H]; contradiction].
    + destruct (Hdiv (fold_left
                        (fun acc xy => fadd acc (fmul (fst xy) (snd xy)))
                        (combine emb1 emb2) fzero)
                     (fmul (np_linalg_norm emb1) (np_linalg_norm emb2)))
        as [q ->].
      cbn [bind]. split; [discriminate | intros [_ H]; contradiction].
  - apply Nat.eqb_neq in E. split.
    + intros H. injection H as <-. auto.
    + intros [-> _]. reflexivity.
Qed.

Lemma distances_raise_iff (live_embedding : ndarray F)
  (ms : list (magang_entry F)) (e : exn) :
  (forall a b, exists q, fdiv a b = Ok q) ->
  (sequence (distances ms live_embedding) = Raise e <->
   e = ValueError /\
   Exists (fun magang =>
             List.length (embedding magang) <> List.length live_embedding) ms).
Proof.
  intros Hdiv. induction ms as [| magang ms IH].
  - simpl. split; [discriminate | intros [_ H]; inversion H].
  - change (distances (magang :: ms) live_embedding)
      with (calculate_cosine_distance live_embedding
              (flatten (embedding magang)) :: distances ms live_embedding).
    cbn [sequence].
    unfold flatten in *.
    destruct (calculate_cosine_distance live_embedding (embedding magang))
      as [d | e'] eqn:Hd; cbn [bind].
    + assert (Hsame : List.length (embedding magang)
                      = List.length live_embedding).
      { destruct (Nat.eq_dec (List.length live_embedding)
                             (List.length (embedding magang))) as [E | E];
          [congruence |].
        assert (Hr : calculate_cosine_distance live_embedding
                       (embedding magang) = Raise ValueError).
        { apply (cosine_distance_raises_iff live_embedding (embedding magang)
                   ValueError Hdiv). auto. }
        congruence. }
      destruct (sequence (distances ms live_embedding)) as [r | e''];
        cbn [bind].
      * split; [discriminate |].
        intros [He Hex]. inversion Hex as [? ? H | ? ? H]; subst;
          [contradiction |].
        destruct IH as [_ IH]. discriminate (IH (conj eq_refl H)).
      * split.
        -- intros H. injection H as ->. destruct IH as [IH _].
           destruct (IH eq_refl) as [-> Hex]. split; [reflexivity |].
           apply Exists_cons_tl. exact Hex.
        -- intros [-> Hex]. inversion Hex as [? ? H | ? ? H]; subst;
             [contradiction |].
           destruct IH as [_ IH]. rewrite (IH (conj eq_refl H)). reflexivity.
    + destruct (proj1 (cosine_distance_raises_iff live_embedding
                         (embedding magang) e' Hdiv) Hd) as [-> Hne].
      split.
      * intros H. injection H as <-. split; [reflexivity |].
        apply Exists_cons_hd. congruence.
      * intros [-> _]. reflexivity.
Qed.

(** X2.  Where the division never raises (numpy's), [recognize_face]
    raises exactly when some roster embedding has another dimension than
    the live embedding, and what it raises is numpy's [ValueError]; in
    every other case it returns. *)
Theorem recognize_face_raises_on_dimension
  (MAGANG_EMBEDDINGS : list (magang_entry F)) (live_embedding : ndarray F)
  (e : exn) :
  (forall a b, exists q, fdiv a b = Ok q) ->
  (recognize_face MAGANG_EMBEDDINGS live_embedding = Raise e <->
   e = ValueError /\
   Exists (fun magang =>
             List.length (embedding magang) <> List.length live_embedding)
          MAGANG_EMBEDDINGS).
Proof.
  intros Hdiv. rewrite recognize_face_raises_iff.
  apply distances_raise_iff. exact Hdiv.
Qed.

Lemma np_dot_sym (a b : ndarray F) :
  (forall x y, fmul x y = fmul y x) -> np_dot a b = np_dot b a.
Proof.
  intros Hmul. unfold np_dot. rewrite (Nat.eqb_sym (List.length b)).
  destruct (Nat.eqb (List.length a) (List.length b)); [| reflexivity].
  f_equal. generalize fzero.
  revert b. induction a as [| x a IH]; intros [| y b] acc; try reflexivity.
  simpl. rewrite (Hmul x y). apply IH.
Qed.

(** X3.  The cosine distance is symmetric as soon as multiplication
    commutes: [calculate_cosine_distance a b] and
    [calculate_cosine_distance b a] are the same result, exception
    included. *)
Theorem cosine_distance_symmetric (emb1 emb2 : ndarray F) :
  (forall x y, fmul x y = fmul y x) ->
  calculate_cosine_distance emb1 emb2 = calculate_cosine_distance emb2 emb1.
Proof.
  intros Hmul. unfold calculate_cosine_distance, flatten.
  rewrite (np_dot_sym emb1 emb2 Hmul).
  rewrite (orb_comm (feq (np_linalg_norm emb1) fzero)).
  rewrite (Hmul (np_linalg_norm emb1)). reflexivity.
Qed.

End RecognitionMore.

(* ================================================================== *)
(** * More of the endpoint *)
(* ================================================================== *)

Section ServerMore.

Context {F : Type} {Num : Numeric F}.

(** X4.  Whatever is uploaded, [absensi_endpoint] leaves the database as
    it was, and a JSON answer is a failure: 400 when no face was found or
    403 when the face is unknown, never the success of line 172. *)
Theorem absensi_endpoint_never_writes (db : database)
  (MAGANG_EMBEDDINGS : list (magang_entry F))
  (face : Exc (option (ndarray F))) :
  fst (absensi_endpoint db MAGANG_EMBEDDINGS face) = db /\
  forall status_code status magang_id distance,
    snd (absensi_endpoint db MAGANG_EMBEDDINGS face)
    = JSONResponse status_code status magang_id distance ->
    status = "FAIL" /\ magang_id = None /\
    ((status_code = 400 /\ face = Ok None) \/
     (status_code = 403 /\ exists d, distance = Some d)).
Proof.
  unfold absensi_endpoint.
  destruct face as [[live |] | e]; cbn [bind].
  - destruct (recognize_face MAGANG_EMBEDDINGS live) as [[[i d] n] | e];
      cbn [bind].
    + destruct (String.eqb i "UNKNOWN"); cbn [negb bind update_absensi_log
                                                  required_arg fst snd].
      * split; [reflexivity |]. intros c st mid dist H.
        injection H as <- <- <- <-. eauto 6.
      * split; [reflexivity | discriminate].
    + split; [reflexivity | discriminate].
  - split; [reflexivity |]. intros c st mid dist H.
    injection H as <- <- <- <-. auto.
  - split; [reflexivity | discriminate].
Qed.

End ServerMore.

(* ================================================================== *)
(** * More of the store *)
(* ================================================================== *)

Lemma buffer_words_cases (n : nat) :
  forall blob, List.length blob <= n ->
    (exists ws, buffer_words blob = Ok ws /\
                List.length blob = 4 * List.length ws) \/
    (buffer_words blob = Raise ValueError /\ ~ whole_words blob).
Proof.
  unfold whole_words.
  induction n as [| n IH]; intros blob Hn.
  - destruct blob; [| simpl in Hn; lia]. left. exists []. auto.
  - destruct blob as [| b0 [| b1 [| b2 [| b3 rest]]]].
    + left. exists []. auto.
    + right. split; [reflexivity | simpl; lia].
    + right. split; [reflexivity | simpl; lia].
    + right. split; [reflexivity | simpl; lia].
    + destruct (IH rest) as [[ws [Hws Hlen]] | [Hr Hmod]];
        [simpl in Hn; lia | |].
      * left. exists (bytes_word b0 b1 b2 b3 :: ws).
        cbn [buffer_words]. rewrite Hws. split; [reflexivity |].
        simpl List.length. lia.
      * right. cbn [buffer_words]. rewrite Hr. split; [reflexivity |].
        change (List.length (b0 :: b1 :: b2 :: b3 :: rest))
          with (4 + List.length rest).
        intros H. apply Hmod.
        replace (4 + List.length rest)
          with (List.length rest + 1 * 4) in H by lia.
        rewrite Nat.Div0.mod_add in H. exact H.
Qed.

Lemma buffer_words_whole (blob : list byte) :
  whole_words blob -> exists ws, buffer_words blob = Ok ws.
Proof.
  intros H.
  destruct (buffer_words_cases (List.length blob) blob (le_n _))
    as [[ws [Hws _]] | [_ Hno]]; [eauto | contradiction].
Qed.

Lemma buffer_words_raises (blob : list byte) (e : exn) :
  buffer_words blob = Raise e <-> e = ValueError /\ ~ whole_words blob.
Proof.
  destruct (buffer_words_cases (List.length blob) blob (le_n _))
    as [[ws [Hws Hlen]] | [Hr Hno]].
  - rewrite Hws. split; [discriminate |]. intros [_ H]. exfalso. apply H.
    unfold whole_words. rewrite Hlen, Nat.mul_comm. apply Nat.Div0.mod_mul.
  - rewrite Hr. split.
    + intros H. injection H as <-. auto.
    + intros [-> _]. reflexivity.
Qed.

Section StoreMore.

Context {F : Type} {Num : Numeric F}.

Lemma load_row_raises (row : magang_row) (e : exn) :
  load_row (F := F) row = Raise e <->
  e = ValueError /\ ~ whole_words (row_master_embedding row).
Proof.
  unfold load_row, np_frombuffer_float32.
  rewrite <- buffer_words_raises.
  destruct (buffer_words (row_master_embedding row)); cbn [bind];
    split; congruence.
Qed.

Lemma load_rows_raise (rows : list magang_row) (e : exn) :
  sequence (map (load_row (F := F)) rows) = Raise e <->
  e = ValueError /\
  Exists (fun r => ~ whole_words (row_master_embedding r)) rows.
Proof.
  induction rows as [| r rows IH].
  - simpl. split; [discriminate | intros [_ H]; inversion H].
  - cbn [map sequence].
    destruct (load_row r) as [m | e'] eqn:Hr; cbn [bind].
    + assert (Hok : ~ ~ whole_words (row_master_embedding r)).
      { intros Hno.
        assert (H : load_row (F := F) r = Raise ValueError)
          by (apply load_row_raises; auto).
        congruence. }
      destruct (sequence (map load_row rows)) as [ms | e'']; cbn [bind].
      * split; [discriminate |].
        intros [He Hex]. inversion Hex as [? ? H | ? ? H]; subst;
          [contradiction |].
        destruct IH as [_ IH]. discriminate (IH (conj eq_refl H)).
      * split.
        -- intros H. injection H as ->. destruct IH as [IH _].
           destruct (IH eq_refl) as [-> Hex]. split; [reflexivity |].
           apply Exists_cons_tl. exact Hex.
        -- intros [-> Hex]. inversion Hex as [? ? H | ? ? H]; subst;
             [contradiction |].
           destruct IH as [_ IH]. rewrite (IH (conj eq_refl H)). reflexivity.
    + destruct (proj1 (load_row_raises r e') Hr) as [-> Hno]. split.
      * intros H. injection H as <-. split; [reflexivity |].
        apply Exists_cons_hd. exact Hno.
      * intros [-> _]. reflexivity.
Qed.

Lemma load_all_needs_whole_words (db : database) (e : exn) :
  load_all_magang_embeddings (F := F) db = Raise e ->
  ~ Forall (fun r => whole_words (row_master_embedding r))
           (identity_records db).
Proof.
  unfold load_all_magang_embeddings, identity_records.
  destruct (magang db) as [rows |]; [| discriminate].
  intros H Hall. apply load_rows_raise in H. destruct H as [_ Hex].
  apply Exists_exists in Hex. destruct Hex as [r [Hr Hno]].
  rewrite Forall_forall in Hall. exact (Hno (Hall r Hr)).
Qed.

(** X5.  [load_all_magang_embeddings] never lets a storage error out; it
    raises exactly when the BLOB of some record is not a whole number of
    32-bit words, and then what [np.frombuffer] raises, [ValueError]. *)
Theorem load_all_raises_iff (db : database) (e : exn) :
  load_all_magang_embeddings (F := F) db = Raise e <->
  e = ValueError /\
  Exists (fun r => ~ whole_words (row_master_embedding r))
         (identity_records db).
Proof.
  unfold load_all_magang_embeddings, identity_records.
  destruct (magang db) as [rows |].
  - apply load_rows_raise.
  - split; [discriminate | intros [_ H]; inversion H].
Qed.

End StoreMore.

Section Histories.

Context {F : Type} {Num : Numeric F}.

Lemma fold_run_op_invariant (P : database -> Prop) :
  (forall db (op : store_op F), P db -> P (run_op db op)) ->
  forall ops db, P db -> P (fold_left run_op ops db).
Proof.
  intros Hstep. induction ops as [| op ops IH]; intros db H.
  - exact H.
  - simpl. apply IH. apply Hstep. exact H.
Qed.

Lemma tobytes_float32_whole (embedding_array : ndarray F) :
  whole_words (tobytes_float32 embedding_array).
Proof.
  unfold whole_words, tobytes_float32.
  induction embedding_array as [| x l IH]; [reflexivity |].
  change (flat_map (fun x => word_bytes (f32_bits x)) (x :: l))
    with (word_bytes (f32_bits x)
          ++ flat_map (fun x => word_bytes (f32_bits x)) l).
  rewrite length_app. unfold word_bytes at 1. simpl List.length.
  replace (4 + List.length (flat_map (fun x => word_bytes (f32_bits x)) l))
    with (List.length (flat_map (fun x => word_bytes (f32_bits x)) l) + 1 * 4)
    by lia.
  rewrite Nat.Div0.mod_add. exact IH.
Qed.

(** Where the records of a database come from after one call. *)
Lemma run_op_records (db : database) (op : store_op F) (r : magang_row) :
  In r (identity_records (run_op db op)) ->
  In r (identity_records db) \/
  exists now magang_id magang_name embedding_array,
    op = OpSaveNewMagang now magang_id magang_name embedding_array /\
    r = {| row_id := magang_id; row_nama := magang_name;
           row_master_embedding := tobytes_float32 embedding_array;
           row_last_updated := strftime now |}.
Proof.
  destruct op; simpl.
  - unfold create_initial_tables, identity_records. simpl.
    destruct (magang db); auto.
  - unfold clear_magang_table.
    destruct (magang db) eqn:E; [intros [] | auto].
  - destruct (magang db) as [rows |] eqn:E.
    + rewrite (save_new_magang_records db now magang_id magang_name
                 embedding_array rows E).
      unfold insert_or_replace, identity_records. rewrite E.
      intros H. apply in_app_or in H. destruct H as [H | [<- | []]].
      * left. apply filter_In in H. tauto.
      * right. eauto 6.
    + destruct (save_new_magang_without_table db now magang_id magang_name
                  embedding_array E) as [-> _]. auto.
  - auto.
  - auto.
  - destruct (update_absensi_log db magang_id magang_name log_time log_type')
      as [db' |] eqn:E; [| auto].
    rewrite (update_absensi_log_records _ _ _ _ _ _ E). auto.
  - unfold reset_absensi_log, identity_records.
    destruct (absensi db); auto.
Qed.

Lemma run_op_unique_ids (db : database) (op : store_op F) :
  unique_ids db -> unique_ids (run_op db op).
Proof.
  intros Hinv. destruct op; simpl.
  - unfold unique_ids, create_initial_tables, identity_records in *. simpl.
    destruct (magang db); [exact Hinv | constructor].
  - apply clear_magang_table_unique_ids.
  - apply save_new_magang_unique_ids. exact Hinv.
  - exact Hinv.
  - exact Hinv.
  - destruct (update_absensi_log db magang_id magang_name log_time log_type')
      as [db' |] eqn:E; [| exact Hinv].
    unfold unique_ids. rewrite (update_absensi_log_records _ _ _ _ _ _ E).
    exact Hinv.
  - unfold unique_ids, reset_absensi_log, identity_records in *.
    destruct (absensi db); exact Hinv.
Qed.

Lemma load_rows_ids (rows : list magang_row) (roster : list (magang_entry F)) :
  sequence (map load_row rows) = Ok roster ->
  map id roster = map row_id rows /\ map name roster = map row_nama rows.
Proof.
  revert roster. induction rows as [| r rows IH]; intros roster H.
  - injection H as <-. auto.
  - change (map load_row (r :: rows)) with (load_row r :: map load_row rows) in H.
    apply sequence_cons_inv in H. destruct H as [m [ms [Hm [Hms ->]]]].
    destruct (IH ms Hms) as [Hid Hname].
    unfold load_row in Hm. apply bind_Ok_inv in Hm.
    destruct Hm as [a [_ Hm]]. injection Hm as <-.
    simpl. rewrite Hid, Hname. auto.
Qed.

(** X6.  After any history of calls of the store's functions on a new
    file, [load_all_magang_embeddings] returns: the roster has one entry
    per identity record, with the records' ids and names in their order,
    and no id twice. *)
Theorem load_all_after_any_history (ops : list (store_op F)) :
  exists roster,
    load_all_magang_embeddings (run_ops ops) = Ok roster /\
    map id roster = map row_id (identity_records (run_ops ops)) /\
    map name roster = map row_nama (identity_records (run_ops ops)) /\
    NoDup (map id roster).
Proof.
  assert (Hwords :
    Forall (fun r => whole_words (row_master_embedding r))
           (identity_records (run_ops ops))).
  { unfold run_ops. apply fold_run_op_invariant; [| constructor].
    intros db op H. apply Forall_forall. intros r Hr.
    destruct (run_op_records db op r Hr) as [Hold | [now [i [n [emb [_ ->]]]]]].
    - rewrite Forall_forall in H. apply H. exact Hold.
    - apply tobytes_float32_whole. }
  assert (Hunique : unique_ids (run_ops ops)).
  { unfold run_ops. apply fold_run_op_invariant; [| constructor].
    apply run_op_unique_ids. }
  destruct (load_all_magang_embeddings (F := F) (run_ops ops))
    as [roster | e] eqn:Hload.
  - exists roster. split; [reflexivity |].
    unfold unique_ids in Hunique.
    unfold load_all_magang_embeddings, identity_records in *.
    destruct (magang (run_ops ops)) as [rows |].
    + destruct (load_rows_ids rows roster Hload) as [Hid Hname].
      rewrite Hid. auto.
    + injection Hload as <-. simpl. repeat split; constructor.
  - exfalso. exact (load_all_needs_whole_words _ _ Hload Hwords).
Qed.

End Histories.

(* ================================================================== *)
(** * More of the AttendanceLedger *)
(* ================================================================== *)

Lemma log_ids_below_next (rows : list absensi_row) :
  Forall (fun r => (log_id r < next_rowid rows)%N) rows.
Proof.
  unfold next_rowid. induction rows as [| r rows IH]; constructor.
  - simpl. lia.
  - eapply Forall_impl; [| exact IH]. intros r' H. simpl in *. lia.
Qed.

Lemma StronglySorted_snoc {A : Type} (R : A -> A -> Prop) (l : list A)
  (y : A) :
  StronglySorted R l -> Forall (fun x => R x y) l ->
  StronglySorted R (l ++ [y]).
Proof.
  induction 1 as [| x l Hl IH Hx]; intros Hy; simpl.
  - repeat constructor.
  - inversion Hy as [| ? ? Hxy Hly]; subst. constructor.
    + apply IH. exact Hly.
    + apply Forall_app. split; [exact Hx | repeat constructor; exact Hxy].
Qed.

Lemma update_absensi_log_ledger (db db' : database)
  (magang_id magang_name : string) (log_time log_type' : option string) :
  update_absensi_log db magang_id magang_name log_time log_type' = Ok db' ->
  ledger db' = ledger db \/
  exists t,
    log_time = Some t /\
    ledger db' =
    ledger db ++ [{| log_id := next_rowid (ledger db);
                     log_magang_id := magang_id; log_nama := magang_name;
                     log_timestamp := t;
                     log_type := default_arg "MASUK" log_type' |}].
Proof.
  unfold update_absensi_log, insert_absensi, ledger, table.
  destruct log_time as [t |]; cbn [required_arg bind]; [| discriminate].
  destruct (absensi db) as [rows |] eqn:E; cbn [bind except_sqlite3];
    intros H; injection H as <-.
  - right. exists t. auto.
  - left. rewrite E. reflexivity.
Qed.

Section LedgerMore.

Context {F : Type} {Num : Numeric F}.

Lemma run_op_ledger_sorted (db : database) (op : store_op F) :
  StronglySorted N.lt (map log_id (ledger db)) ->
  StronglySorted N.lt (map log_id (ledger (run_op db op))).
Proof.
  intros Hinv. destruct op; simpl.
  - unfold create_initial_tables, ledger in *. simpl.
    destruct (absensi db); [exact Hinv | constructor].
  - unfold clear_magang_table, ledger in *.
    destruct (magang db); exact Hinv.
  - unfold save_new_magang, ledger in *.
    destruct (magang db); exact Hinv.
  - exact Hinv.
  - exact Hinv.
  - destruct (update_absensi_log db magang_id magang_name log_time log_type')
      as [db' |] eqn:E; [| exact Hinv].
    destruct (update_absensi_log_ledger _ _ _ _ _ _ E) as [-> | [t [_ ->]]];
      [exact Hinv |].
    rewrite map_app. apply StronglySorted_snoc; [exact Hinv |].
    apply Forall_map. exact (log_ids_below_next (ledger db)).
  - unfold reset_absensi_log.
    destruct (absensi db) eqn:E; [unfold ledger; simpl; constructor |].
    exact Hinv.
Qed.

(** X7.  After any history of calls of the store's functions on a new
    file, the log ids grow strictly along the ledger: they are distinct
    and give the order in which the events were appended. *)
Theorem log_ids_increase_after_any_history (ops : list (store_op F)) :
  StronglySorted N.lt (map log_id (ledger (run_ops ops))) /\
  NoDup (map log_id (ledger (run_ops ops))).
Proof.
  assert (H : StronglySorted N.lt (map log_id (ledger (run_ops ops)))).
  { unfold run_ops. apply fold_run_op_invariant; [| constructor].
    apply run_op_ledger_sorted. }
  split; [exact H |].
  induction H as [| x l Hl IH Hx]; constructor; [| exact IH].
  intros Hin. rewrite Forall_forall in Hx. specialize (Hx x Hin). lia.
Qed.

(** X8.  [create_initial_tables] may be run again at any time: running
    it twice is running it once, it keeps every identity record and every
    attendance event, and after it [save_new_magang] reports success and
    [update_absensi_log], given the time, appends its event. *)
Theorem create_initial_tables_keeps_data (db : database) :
  create_initial_tables (create_initial_tables db) = create_initial_tables db /\
  identity_records (create_initial_tables db) = identity_records db /\
  ledger (create_initial_tables db) = ledger db /\
  (forall now magang_id magang_name (embedding_array : ndarray F),
     fst (snd (save_new_magang (create_initial_tables db) now magang_id
                 magang_name embedding_array)) = true) /\
  (forall magang_id magang_name log_time log_type',
     exists db',
       update_absensi_log (create_initial_tables db) magang_id magang_name
         (Some log_time) log_type' = Ok db' /\
       List.length (ledger db') = S (List.length (ledger db))).
Proof.
  unfold create_initial_tables, identity_records, ledger. simpl.
  split; [reflexivity |].
  split; [destruct (magang db); reflexivity |].
  split; [destruct (absensi db); reflexivity |].
  split; [reflexivity |].
  intros. unfold update_absensi_log, insert_absensi. simpl.
  eexists. split; [reflexivity |]. simpl.
  rewrite length_app. simpl. destruct (absensi db); simpl; lia.
Qed.

(** X9.  After [clear_magang_table] the roster that
    [load_all_magang_embeddings] returns is empty, whatever the table held
    (unreadable BLOBs included); the ledger is untouched, and clearing
    twice is clearing once. *)
Theorem clear_then_load_is_empty (db : database) :
  load_all_magang_embeddings (F := F) (clear_magang_table db) = Ok [] /\
  ledger (clear_magang_table db) = ledger db /\
  clear_magang_table (clear_magang_table db) = clear_magang_table db.
Proof.
  unfold load_all_magang_embeddings, clear_magang_table, ledger.
  destruct (magang db) as [rows |] eqn:E; simpl.
  - auto.
  - rewrite E. auto.
Qed.

Lemma insert_or_replace_absorbs (new1 new2 : magang_row)
  (rows : list magang_row) :
  row_id new1 = row_id new2 ->
  insert_or_replace new2 (insert_or_replace new1 rows)
  = insert_or_replace new2 rows.
Proof.
  intros Hid. unfold insert_or_replace. rewrite filter_app. simpl.
  rewrite Hid, String.eqb_refl. simpl. rewrite app_nil_r. f_equal.
  induction rows as [| r rows IH]; simpl; [reflexivity |].
  destruct (String.eqb (row_id r) (row_id new2)) eqn:E; simpl.
  - exact IH.
  - rewrite E. simpl. rewrite IH. reflexivity.
Qed.

(** X10.  The last [save_new_magang] under an id wins: saving twice under
    one id leaves the database that the second call alone would leave,
    name, embedding and [last_updated] being those of the second call. *)
Theorem save_new_magang_last_wins (db : database) (now1 now2 : datetime)
  (magang_id name1 name2 : string) (embedding1 embedding2 : ndarray F) :
  fst (save_new_magang
         (fst (save_new_magang db now1 magang_id name1 embedding1))
         now2 magang_id name2 embedding2)
  = fst (save_new_magang db now2 magang_id name2 embedding2).
Proof.
  unfold save_new_magang.
  destruct (magang db) as [rows |] eqn:E; cbn [fst magang absensi].
  - rewrite insert_or_replace_absorbs by reflexivity. reflexivity.
  - rewrite E. reflexivity.
Qed.

(** X11.  What [update_absensi_log] changes for [check_already_absen]:
    after an event is appended, the check for an identity and a type
    answers what it answered before, or [True] when the event is of that
    identity and type and its timestamp is not before today's
    ['YYYY-MM-DD 00:00:00'] as text. *)
Theorem check_after_update (db : database) (rows : list absensi_row)
  (logged_id logged_name log_time : string) (logged_type : option string)
  (now : datetime) (magang_id : string) (log_type' : option string) :
  absensi db = Some rows ->
  exists db' before,
    update_absensi_log db logged_id logged_name (Some log_time) logged_type
    = Ok db' /\
    check_already_absen db now magang_id log_type' = Ok before /\
    check_already_absen db' now magang_id log_type'
    = Ok (before
          || (String.eqb logged_id magang_id
              && String.eqb (default_arg "MASUK" logged_type)
                            (default_arg "MASUK" log_type')
              && String.leb (today_start now) log_time)).
Proof.
  intros Htable.
  assert (Hup : exists db',
    update_absensi_log db logged_id logged_name (Some log_time) logged_type
    = Ok db' /\
    ledger db' =
    ledger db ++ [{| log_id := next_rowid rows; log_magang_id := logged_id;
                     log_nama := logged_name; log_timestamp := log_time;
                     log_type := default_arg "MASUK" logged_type |}]).
  { unfold update_absensi_log, insert_absensi, ledger. simpl.
    rewrite Htable. simpl. eexists. split; reflexivity. }
  destruct Hup as [db' [Hup Hledger]].
  exists db', (existsb (where_absen magang_id (default_arg "MASUK" log_type')
                          (today_start now)) (ledger db)).
  split; [exact Hup |]. split; [apply check_already_absen_value |].
  rewrite check_already_absen_value, Hledger, existsb_app. simpl.
  rewrite orb_false_r. reflexivity.
Qed.

Lemma at_or_after_start_of_own_day (now : datetime) :
  at_or_after_start_of_day now now.
Proof.
  unfold at_or_after_start_of_day, datetime_compare, start_of_day, fields.
  simpl. rewrite !N.compare_refl.
  destruct (hour now); simpl; [| discriminate].
  destruct (minute now); simpl; [| discriminate].
  destruct (second now); simpl; discriminate.
Qed.

(** X12.  An attendance logged with a server time of today is seen by
    the day's check: after [update_absensi_log] with the text of a time
    at or after today's midnight, [check_already_absen] for that identity
    and type returns [True]; and the time of logging itself is such a
    time. *)
Theorem logged_today_is_seen (db : database) (now t : datetime)
  (magang_id magang_name : string) (log_type' : option string) :
  absensi db <> None ->
  valid_datetime now -> valid_datetime t ->
  at_or_after_start_of_day now t ->
  (exists db',
     update_absensi_log db magang_id magang_name (Some (strftime t)) log_type'
     = Ok db' /\
     check_already_absen db' now magang_id log_type' = Ok true) /\
  at_or_after_start_of_day now now.
Proof.
  intros Htable Hnow Ht Hafter.
  split; [| apply at_or_after_start_of_own_day].
  destruct (absensi db) as [rows |] eqn:E; [| congruence].
  unfold update_absensi_log, insert_absensi. simpl. rewrite E. simpl.
  eexists. split; [reflexivity |].
  rewrite check_already_absen_value. f_equal. unfold ledger. simpl.
  rewrite existsb_app. simpl. unfold where_absen at 2. simpl.
  rewrite !String.eqb_refl. simpl.
  rewrite (proj2 (leb_today_start now t Hnow Ht) Hafter).
  apply orb_true_r.
Qed.

(** X13.  [reset_absensi_log] empties the ledger and nothing else: the
    identity records stay, [check_already_absen] answers [False] for
    everyone, and the next event appended to the table gets log id 1. *)
Theorem reset_absensi_log_starts_over (db : database) :
  ledger (reset_absensi_log db) = [] /\
  identity_records (reset_absensi_log db) = identity_records db /\
  (forall now magang_id log_type',
     check_already_absen (reset_absensi_log db) now magang_id log_type'
     = Ok false) /\
  (absensi db <> None ->
   forall magang_id magang_name log_time log_type',
     exists db',
       update_absensi_log (reset_absensi_log db) magang_id magang_name
         (Some log_time) log_type' = Ok db' /\
       map log_id (ledger db') = [1%N]).
Proof.
  assert (Hledger : ledger (reset_absensi_log db) = []).
  { unfold reset_absensi_log, ledger.
    destruct (absensi db) eqn:E; simpl; [reflexivity | rewrite E; reflexivity]. }
  split; [exact Hledger |]. split; [| split].
  - unfold reset_absensi_log, identity_records.
    destruct (absensi db); reflexivity.
  - intros. rewrite check_already_absen_value, Hledger. reflexivity.
  - intros Htable magang_id magang_name log_time log_type'.
    unfold reset_absensi_log.
    destruct (absensi db) as [rows |]; [| congruence].
    unfold update_absensi_log, insert_absensi, ledger. simpl.
    eexists. split; reflexivity.
Qed.

End LedgerMore.

(* ================================================================== *)
(** * More of the TrainingAggregator *)
(* ================================================================== *)

Lemma chunk_count (k m : nat) (A : Type) (l : list A) :
  0 < k -> List.length l = S m ->
  (List.length l + k - 1) / k = S ((List.length (skipn k l) + k - 1) / k).
Proof.
  intros Hk Hl. rewrite length_skipn, Hl.
  replace (S m + k - 1) with (m + 1 * k) by lia.
  rewrite Nat.div_add by lia. rewrite Nat.add_1_r. f_equal.
  destruct (Nat.le_gt_cases k (S m)) as [H | H].
  - f_equal. lia.
  - replace (S m - k + k - 1) with (k - 1) by lia.
    rewrite !Nat.div_small by lia. reflexivity.
Qed.

Lemma chunks_partition (A : Type) (k : nat) :
  0 < k ->
  forall n (l : list A), List.length l <= n ->
    List.concat (map (fun i => firstn k (skipn (i * k) l))
                (seq 0 ((List.length l + k - 1) / k))) = l /\
    Forall (fun b => 1 <= List.length b <= k)
           (map (fun i => firstn k (skipn (i * k) l))
                (seq 0 ((List.length l + k - 1) / k))).
Proof.
  intros Hk. induction n as [| n IH]; intros l Hn.
  - destruct l; [| simpl in Hn; lia]. simpl.
    rewrite Nat.div_small by lia. simpl. auto.
  - destruct l as [| a l'] eqn:El.
    + simpl. rewrite Nat.div_small by lia. simpl. auto.
    + rewrite <- El in *.
      assert (Hlen : List.length l = S (List.length l'))
        by (rewrite El; reflexivity).
      rewrite (chunk_count k (List.length l') A l Hk Hlen).
      cbn [seq map]. rewrite <- seq_shift, map_map.
      assert (Hshift :
        map (fun i => firstn k (skipn (S i * k) l))
            (seq 0 ((List.length (skipn k l) + k - 1) / k))
        = map (fun i => firstn k (skipn (i * k) (skipn k l)))
              (seq 0 ((List.length (skipn k l) + k - 1) / k))).
      { apply map_ext. intros i. rewrite skipn_skipn. f_equal. f_equal. lia. }
      rewrite Hshift.
      destruct (IH (skipn k l)) as [IHc IHf].
      { rewrite length_skipn. lia. }
      split.
      * cbn [List.concat]. rewrite IHc. simpl. apply firstn_skipn.
      * constructor; [| exact IHf].
        simpl. rewrite length_firstn. lia.
Qed.

Section TrainingMore.

Context {F : Type} {Num : Numeric F}.
Variable image : Type.
Variable embed_batch : list image -> Exc (list (ndarray F)).
Variable clock : magang_folder image -> datetime.

(** X14.  The batches of the inner loop cut the image files into
    consecutive pieces: put end to end they are the list of files, so each
    image is in exactly one batch, and every batch holds between 1 and
    [BATCH_SIZE] files. *)
Theorem batches_partition (image_files : list image) :
  List.concat (batches image image_files) = image_files /\
  Forall (fun batch_files => 1 <= List.length batch_files <= BATCH_SIZE)
         (batches image image_files).
Proof.
  unfold batches.
  apply (chunks_partition image BATCH_SIZE) with (n := List.length image_files).
  - unfold BATCH_SIZE. lia.
  - apply le_n.
Qed.



Lemma np_mean_axis0_raises (first : ndarray F) (rest : list (ndarray F))
  (e : exn) :
  np_mean_axis0 first rest = Raise e <->
  e = ValueError /\
  Exists (fun row => List.length row <> List.length first) rest.
Proof.
  unfold np_mean_axis0.
  destruct (forallb (fun row => Nat.eqb (List.length row) (List.length first))
                    rest) eqn:E.
  - split; [discriminate |]. intros [_ Hex].
    apply Exists_exists in Hex. destruct Hex as [row [Hin Hne]].
    rewrite forallb_forall in E. specialize (E row Hin).
    apply Nat.eqb_eq in E. contradiction.
  - split.
    + intros H. injection H as <-. split; [reflexivity |].
      apply Exists_exists.
      assert (Hn : ~ (forall row, In row rest ->
                        Nat.eqb (List.length row) (List.length first) = true)).
      { intros Hall. apply forallb_forall in Hall.
        discriminate (eq_trans (eq_sym E) Hall). }
      clear E. induction rest as [| row rest IH].
      * exfalso. apply Hn. intros row [].
      * destruct (Nat.eqb (List.length row) (List.length first)) eqn:Er.
        -- destruct IH as [row' [Hin Hne]].
           { intros Hall. apply Hn. intros r [<- | Hr]; auto. }
           exists row'. split; [right; exact Hin | exact Hne].
        -- exists row. split; [left; reflexivity |].
           apply Nat.eqb_neq. exact Er.
    + intros [-> _]. reflexivity.
Qed.

(** X16.  [aggregate_and_store] raises exactly when the embeddings it is
    given do not all have the dimension of the first, and then numpy's
    [ValueError]: a failure of the store is never raised. *)
Theorem aggregate_and_store_raises_iff (db : database) (now : datetime)
  (magang_id magang_name : string) (embeddings : list (ndarray F)) (e : exn) :
  aggregate_and_store db now magang_id magang_name embeddings = Raise e <->
  e = ValueError /\
  exists first rest,
    embeddings = first :: rest /\
    Exists (fun row => List.length row <> List.length first) rest.
Proof.
  unfold aggregate_and_store. destruct embeddings as [| first rest].
  - split; [discriminate | intros [_ [f [r [H _]]]]; discriminate H].
  - destruct (np_mean_axis0 first rest) as [avg | e'] eqn:Hmean; cbn [bind].
    + destruct (save_new_magang db now magang_id magang_name avg).
      split; [discriminate |].
      intros [-> [f [r [H Hex]]]]. injection H as <- <-.
      assert (Hr : np_mean_axis0 first rest = Raise ValueError)
        by (apply np_mean_axis0_raises; auto).
      congruence.
    + destruct (proj1 (np_mean_axis0_raises first rest e') Hmean) as [-> Hex].
      split.
      * intros H. injection H as <-. split; [reflexivity |].
        exists first, rest. auto.
      * intros [-> _]. reflexivity.
Qed.

(** X17.  A save that fails is not noticed by the run: on a database
    without the table [magang], [aggregate_and_store] of embeddings of one
    dimension returns the database as it was, and still reports all of
    them as processed. *)
Theorem aggregate_and_store_without_table (db : database) (now : datetime)
  (magang_id magang_name : string) (first : ndarray F)
  (rest : list (ndarray F)) :
  magang db = None ->
  Forall (fun row => List.length row = List.length first) rest ->
  aggregate_and_store db now magang_id magang_name (first :: rest)
  = Ok (db, S (List.length rest)).
Proof.
  intros Htable Hdim.
  destruct (np_mean_axis0_coordinates first rest Hdim) as [avg [Hmean _]].
  unfold aggregate_and_store. rewrite Hmean. cbn [bind].
  unfold save_new_magang. rewrite Htable. reflexivity.
Qed.

End TrainingMore.

Section EnrollmentRun.

Context {F : Type} {Num : Numeric F}.
Variable image : Type.
Variable embed_batch : list image -> Exc (list (ndarray F)).
Variable clock : magang_folder image -> datetime.

Lemma process_magang_step (db0 db1 : database) (n0 n1 : nat)
  (magang : magang_folder image) :
  process_magang image embed_batch clock (db0, n0) magang = Ok (db1, n1) ->
  n1 = n0 + List.length
              (collect_embeddings image embed_batch (folder_images magang)) /\
  ((collect_embeddings image embed_batch (folder_images magang) = [] /\
    db1 = db0) \/
   (collect_embeddings image embed_batch (folder_images magang) <> [] /\
    exists avg_embedding,
      db1 = fst (save_new_magang db0 (clock magang) (folder_id magang)
                   (folder_name magang) avg_embedding))).
Proof.
  unfold process_magang.
  destruct (folder_images magang) as [| f fs] eqn:E.
  - intros H. injection H as <- <-.
    change (collect_embeddings image embed_batch []) with (@nil (ndarray F)).
    simpl. split; [lia | auto].
  - intros H. apply bind_Ok_inv in H. destruct H as [[db2 k] [Hagg H]].
    injection H as <- <-. unfold aggregate_and_store in Hagg.
    destruct (collect_embeddings image embed_batch (f :: fs))
      as [| first rest].
    + injection Hagg as <- <-. simpl. split; [lia | auto].
    + apply bind_Ok_inv in Hagg. destruct Hagg as [avg [_ Hagg]].
      destruct (save_new_magang db0 (clock magang) (folder_id magang)
                  (folder_name magang) avg) as [db3 r] eqn:Hsave.
      injection Hagg as <- <-. split; [reflexivity |].
      right. split; [discriminate |]. exists avg. rewrite Hsave. reflexivity.
Qed.

Lemma save_new_magang_frame (db : database) (now : datetime)
  (magang_id magang_name : string) (embedding_array : ndarray F) :
  ledger (fst (save_new_magang db now magang_id magang_name embedding_array))
  = ledger db /\
  (magang db <> None ->
   magang (fst (save_new_magang db now magang_id magang_name embedding_array))
   <> None).
Proof.
  unfold save_new_magang, ledger.
  destruct (magang db) eqn:E; simpl; [split; [reflexivity | discriminate] |].
  split; [reflexivity | congruence].
Qed.

Lemma save_new_magang_found (db : database) (now : datetime)
  (magang_id magang_name : string) (embedding_array : ndarray F)
  (i : string) :
  magang db <> None ->
  find_magang i db <> None \/ i = magang_id ->
  find_magang i
    (fst (save_new_magang db now magang_id magang_name embedding_array))
  <> None.
Proof.
  intros Htable H. destruct (magang db) as [rows |] eqn:E; [| congruence].
  unfold find_magang in *.
  rewrite (save_new_magang_records db now magang_id magang_name
             embedding_array rows E).
  destruct (String.eqb i magang_id) eqn:Ei.
  - apply String.eqb_eq in Ei. subst i.
    rewrite (find_insert_or_replace
               {| row_id := magang_id; row_nama := magang_name;
                  row_master_embedding := tobytes_float32 embedding_array;
                  row_last_updated := strftime now |}).
    discriminate.
  - apply String.eqb_neq in Ei.
    rewrite find_insert_or_replace_other by exact Ei.
    destruct H as [H | H]; [| contradiction].
    unfold identity_records in H. rewrite E in H. exact H.
Qed.

Lemma enrollment_loop (magang_list : list (magang_folder image)) :
  forall (db0 db' : database) (n0 n' : nat),
    for_each (process_magang image embed_batch clock) magang_list (db0, n0)
    = Ok (db', n') ->
    n' = n0 + list_sum
                (map (fun magang =>
                        List.length
                          (collect_embeddings image embed_batch
                             (folder_images magang))) magang_list) /\
    ledger db' = ledger db0 /\
    (forall r, In r (identity_records db') ->
       In r (identity_records db0) \/
       exists magang,
         In magang magang_list /\
         row_id r = folder_id magang /\ row_nama r = folder_name magang /\
         row_last_updated r = strftime (clock magang) /\
         collect_embeddings image embed_batch (folder_images magang) <> []) /\
    (magang db0 <> None ->
     forall i,
       find_magang i db0 <> None \/
       (exists magang,
          In magang magang_list /\ folder_id magang = i /\
          collect_embeddings image embed_batch (folder_images magang) <> []) ->
       find_magang i db' <> None).
Proof.
  induction magang_list as [| m l IH]; intros db0 db' n0 n' Hrun.
  - injection Hrun as <- <-. simpl. split; [lia |]. split; [reflexivity |].
    split; [auto |]. intros _ i [H | [mg [[] _]]]. exact H.
  - cbn [for_each] in Hrun. apply bind_Ok_inv in Hrun.
    destruct Hrun as [[db1 n1] [Hstep Hrun]].
    destruct (IH db1 db' n1 n' Hrun) as [Hn [Hledger [Hsound Hfound]]].
    destruct (process_magang_step db0 db1 n0 n1 m Hstep) as [Hn1 Hdb1].
    split; [simpl; lia |].
    destruct Hdb1 as [[Hnone ->] | [Hsome [avg ->]]].
    + split; [exact Hledger |]. split.
      * intros r Hr. destruct (Hsound r Hr) as [H | [mg [Hin H]]]; [auto |].
        right. exists mg. split; [right; exact Hin | exact H].
      * intros Htable i [H | [mg [[<- | Hin] [Hid Hc]]]].
        -- apply Hfound; auto.
        -- contradiction.
        -- apply Hfound; [exact Htable |]. right. exists mg. auto.
    + destruct (save_new_magang_frame db0 (clock m) (folder_id m)
                  (folder_name m) avg) as [Hl Ht].
      split; [rewrite Hledger; exact Hl |]. split.
      * intros r Hr. destruct (Hsound r Hr) as [H | [mg [Hin H]]].
        -- destruct (magang db0) as [rows |] eqn:E.
           ++ rewrite (save_new_magang_records db0 (clock m) (folder_id m)
                         (folder_name m) avg rows E) in H.
              unfold insert_or_replace in H. apply in_app_or in H.
              destruct H as [H | [<- | []]].
              ** left. unfold identity_records. rewrite E.
                 apply filter_In in H. tauto.
              ** right. exists m. simpl. split; [left; reflexivity | auto].
           ++ destruct (save_new_magang_without_table db0 (clock m)
                          (folder_id m) (folder_name m) avg E) as [Hsame _].
              rewrite Hsame in H. auto.
        -- right. exists mg. split; [right; exact Hin | exact H].
      * intros Htable i Hi. apply Hfound; [exact (Ht Htable) |].
        destruct Hi as [H | [mg [[<- | Hin] [Hid Hc]]]].
        -- left. apply save_new_magang_found; auto.
        -- left. apply save_new_magang_found; auto.
        -- right. exists mg. auto.
Qed.

(** X18.  A run of [process_and_save_embeddings] that returns, on a
    dataset with folders: the total it reports is the number of embeddings
    collected over all folders; the ledger is untouched; every identity
    record of the resulting database comes from a folder of the dataset
    that yielded an embedding (the former roster is gone), with that
    folder's id and name; and where the table exists, every such folder's
    id has a record. *)
Theorem enrollment_run_summary (db db' : database)
  (magang_list : list (magang_folder image)) (total : nat) :
  magang_list <> [] ->
  process_and_save_embeddings image embed_batch clock db (Some magang_list)
  = Ok (db', total) ->
  total = list_sum
            (map (fun magang =>
                    List.length
                      (collect_embeddings image embed_batch
                         (folder_images magang))) magang_list) /\
  ledger db' = ledger db /\
  (forall r, In r (identity_records db') ->
     exists magang,
       In magang magang_list /\
       row_id r = folder_id magang /\ row_nama r = folder_name magang /\
       row_last_updated r = strftime (clock magang) /\
       collect_embeddings image embed_batch (folder_images magang) <> []) /\
  (magang db <> None ->
   forall magang,
     In magang magang_list ->
     collect_embeddings image embed_batch (folder_images magang) <> [] ->
     exists r, find_magang (folder_id magang) db' = Some r).
Proof.
  intros Hne Hrun. unfold process_and_save_embeddings in Hrun.
  destruct magang_list as [| m l]; [congruence |].
  destruct (enrollment_loop (m :: l) (clear_magang_table db) db' 0 total Hrun)
    as [Hn [Hledger [Hsound Hfound]]].
  assert (Hclear : identity_records (clear_magang_table db) = []
                   /\ ledger (clear_magang_table db) = ledger db
                   /\ (magang db <> None ->
                       magang (clear_magang_table db) <> None)).
  { unfold clear_magang_table, identity_records, ledger.
    destruct (magang db) eqn:E; simpl.
    - repeat split. discriminate.
    - rewrite E. repeat split. congruence. }
  destruct Hclear as [Hrecords [Hl Ht]].
  split; [exact Hn |]. split; [rewrite Hledger; exact Hl |]. split.
  - intros r Hr. destruct (Hsound r Hr) as [H | H]; [| exact H].
    rewrite Hrecords in H. destruct H.
  - intros Htable mg Hin Hc.
    assert (H : find_magang (folder_id mg) db' <> None).
    { apply Hfound; [exact (Ht Htable) |]. right. exists mg. auto. }
    destruct (find_magang (folder_id mg) db') as [r |]; [eauto | congruence].
Qed.

End EnrollmentRun.

(* ================================================================== *)
(** * The further theorems at concrete inputs *)
(* ================================================================== *)

Module Float64Arith.

Lemma SFmul_comm (prec emax : Z) (x y : spec_float) :
  SFmul prec emax x y = SFmul prec emax y x.
Proof.
  destruct x as [sx | sx | | sx mx ex], y as [sy | sy | | sy my ey];
    simpl; try reflexivity;
    rewrite (xorb_comm sx sy); try reflexivity.
  rewrite (Pos.mul_comm mx my), (Z.add_comm ex ey). reflexivity.
Qed.

(** Binary64 multiplication commutes. *)
Lemma mul_comm (x y : float) : PrimFloat.mul x y = PrimFloat.mul y x.
Proof.
  apply Prim2SF_inj. rewrite !FloatAxioms.mul_spec. apply SFmul_comm.
Qed.

End Float64Arith.

Lemma recognize_face_answer_sound_witness :
  ("A001" = "UNKNOWN" /\ "Ana" = "UNKNOWN") \/
  (exists magang,
     In magang roster_with_tie /\
     "A001" = id magang /\ "Ana" = name magang /\
     calculate_cosine_distance [1; 0]%float (flatten (embedding magang))
     = Ok 0%float /\
     fgt 0%float SIMILARITY_THRESHOLD = false).
Proof.
  apply (recognize_face_answer_sound roster_with_tie [1; 0]%float
           "A001" 0%float "Ana").
  vm_compute. reflexivity.
Defined.

Lemma recognize_face_raises_on_dimension_witness :
  recognize_face roster_with_tie [1; 0; 0]%float = Raise ValueError.
Proof.
  apply (recognize_face_raises_on_dimension roster_with_tie [1; 0; 0]%float
           ValueError).
  - intros a b. exists (PrimFloat.div a b). reflexivity.
  - split; [reflexivity |]. apply Exists_cons_hd. simpl. discriminate.
Defined.

Lemma cosine_distance_symmetric_witness :
  calculate_cosine_distance [3; 4]%float [1; 0]%float
  = calculate_cosine_distance [1; 0]%float [3; 4]%float.
Proof.
  apply (cosine_distance_symmetric [3; 4]%float [1; 0]%float).
  exact Float64Arith.mul_comm.
Defined.

Lemma check_after_update_witness :
  exists db' before,
    update_absensi_log database_with_ledger "A002" "Budi"
      (Some (strftime noon_2025_01_15)) None = Ok db' /\
    check_already_absen database_with_ledger noon_2025_01_15 "A002" None
    = Ok before /\
    check_already_absen db' noon_2025_01_15 "A002" None
    = Ok (before
          || (String.eqb "A002" "A002"
              && String.eqb (default_arg "MASUK" None)
                            (default_arg "MASUK" None)
              && String.leb (today_start noon_2025_01_15)
                            (strftime noon_2025_01_15))).
Proof.
  apply (check_after_update database_with_ledger
           (ledger database_with_ledger) "A002" "Budi"
           (strftime noon_2025_01_15) None noon_2025_01_15 "A002" None).
  reflexivity.
Defined.

Lemma logged_today_is_seen_witness :
  (exists db',
     update_absensi_log database_with_ledger "A002" "Budi"
       (Some (strftime morning_2025_01_15)) None = Ok db' /\
     check_already_absen db' noon_2025_01_15 "A002" None = Ok true) /\
  at_or_after_start_of_day noon_2025_01_15 noon_2025_01_15.
Proof.
  apply (logged_today_is_seen database_with_ledger noon_2025_01_15
           morning_2025_01_15 "A002" "Budi" None).
  - discriminate.
  - valid_by_computation.
  - valid_by_computation.
  - unfold at_or_after_start_of_day. vm_compute. discriminate.
Defined.

Lemma aggregate_and_store_without_table_witness :
  aggregate_and_store empty_database noon_2025_01_15 "A001" "Ana"
    [[1; 2]; [3; 4]]%float
  = Ok (empty_database, 2).
Proof.
  apply (aggregate_and_store_without_table empty_database noon_2025_01_15
           "A001" "Ana" [1; 2]%float [[3; 4]]%float).
  - reflexivity.
  - repeat constructor.
Defined.

Lemma enrollment_run_summary_witness :
  snd enrolled_two_folders
  = list_sum
      (map (fun magang =>
              List.length
                (collect_embeddings (ndarray float) identity_extractor
                   (folder_images magang))) two_folders) /\
  ledger (fst enrolled_two_folders) = ledger database_with_ana /\
  (forall r, In r (identity_records (fst enrolled_two_folders)) ->
     exists magang,
       In magang two_folders /\
       row_id r = folder_id magang /\ row_nama r = folder_name magang /\
       row_last_updated r = strftime noon_2025_01_15 /\
       collect_embeddings (ndarray float) identity_extractor
         (folder_images magang) <> []) /\
  (magang database_with_ana <> None ->
   forall magang,
     In magang two_folders ->
     collect_embeddings (ndarray float) identity_extractor
       (folder_images magang) <> [] ->
     exists r, find_magang (folder_id magang) (fst enrolled_two_folders)
               = Some r).
Proof.
  apply (enrollment_run_summary (ndarray float) identity_extractor
           (fun _ => noon_2025_01_15) database_with_ana
           (fst enrolled_two_folders) two_folders (snd enrolled_two_folders)).
  - discriminate.
  - vm_compute. reflexivity.
Defined.

(** The run replaces the roster: A001 is gone, Ana is enrolled with the
    centroid of her two images, Budi, without images, is not, and two
    embeddings are reported. *)
Example enrollment_run_replaces_roster :
  map row_id (identity_records (fst enrolled_two_folders)) = ["Ana"] /\
  snd enrolled_two_folders = 2 /\
  load_all_magang_embeddings (fst enrolled_two_folders)
  = Ok [ {| id := "Ana"; name := "Ana"; embedding := [2; 3]%float |} ].
Proof. vm_compute. auto. Qed.
